(** * vfs: a virtual filesystem facade over memory, disk and bundled stores

    A shallow embedding of the Go package [github.com/yasufadhili/vfs]:
    the bundled registry ([BundledManager]), the facade ([VFS]) with its
    path normalisation and read-only guards, [Clone], [Copy]/[Move],
    [Dump], and the watch matcher.

    Go strings are byte strings, modelled by [string]; file contents are
    [list byte]; Go maps are [gmap]s whose iteration order is left open. *)

From Stdlib Require Import Strings.String Strings.Ascii Strings.Byte NArith.
From stdpp Require Import gmap strings list fin_maps sorting.

(** ** Package [strings] *)

Module strings.

Fixpoint drop (n : nat) (s : string) : string :=
  match n, s with
  | O, _ => s
  | S n', String _ s' => drop n' s'
  | S _, EmptyString => EmptyString
  end.

Fixpoint take (n : nat) (s : string) : string :=
  match n, s with
  | O, _ => EmptyString
  | S n', String c s' => String c (take n' s')
  | S _, EmptyString => EmptyString
  end.

(** [strings.HasPrefix(s, prefix)] *)
Fixpoint HasPrefix (s prefix : string) {struct prefix} : bool :=
  match prefix, s with
  | EmptyString, _ => true
  | String c p', String d s' => Ascii.eqb c d && HasPrefix s' p'
  | String _ _, EmptyString => false
  end.

(** [strings.HasSuffix(s, suffix)]:
    [len(s) >= len(suffix) && s[len(s)-len(suffix):] == suffix] *)
Definition HasSuffix (s suffix : string) : bool :=
  (String.length suffix <=? String.length s)%nat
  && String.eqb (drop (String.length s - String.length suffix) s) suffix.

(** [strings.TrimPrefix(s, prefix)] *)
Definition TrimPrefix (s prefix : string) : string :=
  if HasPrefix s prefix then drop (String.length prefix) s else s.

(** [strings.TrimSuffix(s, suffix)] *)
Definition TrimSuffix (s suffix : string) : string :=
  if HasSuffix s suffix
  then take (String.length s - String.length suffix) s else s.

(** [strings.Split(s, "/")]: the fields between slashes, at least one. *)
Fixpoint split_slash (s : string) : list string :=
  match s with
  | EmptyString => [EmptyString]
  | String c s' =>
      if Ascii.eqb c "/" then EmptyString :: split_slash s'
      else match split_slash s' with
           | h :: t => String c h :: t
           | [] => [String c EmptyString]
           end
  end.

(** [strings.Join(elems, "/")] *)
Fixpoint join_slash (elems : list string) : string :=
  match elems with
  | [] => EmptyString
  | [e] => e
  | e :: rest => e +:+ "/" +:+ join_slash rest
  end.

(** [strings.Contains(s, "/")] *)
Fixpoint contains_slash (s : string) : bool :=
  match s with
  | EmptyString => false
  | String c s' => Ascii.eqb c "/" || contains_slash s'
  end.

End strings.

(** ** Package [path/filepath] (Unix flavour: separator [/]) *)

Module filepath.

(** [filepath.IsAbs] *)
Definition IsAbs (path : string) : bool := strings.HasPrefix path "/".

(** [filepath.HasPrefix] is [strings.HasPrefix] on Unix. *)
Definition HasPrefix (p prefix : string) : bool := strings.HasPrefix p prefix.

(** One element of the path being cleaned, against the elements kept so
    far ([kept] is most-recent-first).  Empty and [.] elements vanish, a
    [..] removes the last real element; at the root it is dropped, and in
    a relative path it is kept once nothing is left to remove. *)
Definition clean_step (rooted : bool) (kept : list string) (elem : string)
  : list string :=
  if String.eqb elem "" || String.eqb elem "." then kept
  else if String.eqb elem ".." then
    match kept with
    | top :: below =>
        if String.eqb top ".." then elem :: kept else below
    | [] => if rooted then [] else [elem]
    end
  else elem :: kept.

(** The elements of [Clean path], first to last. *)
Definition clean_elems (path : string) : list string :=
  rev (fold_left (clean_step (IsAbs path)) (strings.split_slash path) []).

(** [filepath.Clean]: the shortest path name equivalent to [path] by
    purely lexical processing. *)
Definition Clean (path : string) : string :=
  if IsAbs path then "/" +:+ strings.join_slash (clean_elems path)
  else match clean_elems path with
       | [] => "."
       | es => strings.join_slash es
       end.

(** [filepath.Join(a, b)]: empty elements are ignored, the rest is
    joined with [/] and cleaned. *)
Definition Join (a b : string) : string :=
  if String.eqb a "" then (if String.eqb b "" then "" else Clean b)
  else Clean (a +:+ "/" +:+ b).

(** Index just past the last [/] of [path] (0 if there is none). *)
Fixpoint after_last_slash (path : string) : nat :=
  match path with
  | EmptyString => 0
  | String c rest =>
      if strings.contains_slash rest then S (after_last_slash rest)
      else if Ascii.eqb c "/" then 1 else 0
  end.

(** [filepath.Dir]: all but the last element of [path], cleaned. *)
Definition Dir (path : string) : string :=
  Clean (strings.take (after_last_slash path) path).

(** [filepath.Base]: the last element of [path]; trailing slashes are
    removed first, the empty path gives [.], all slashes give [/]. *)
Definition Base (path : string) : string :=
  if String.eqb path "" then "."
  else match filter (fun e => negb (String.eqb e ""))
               (strings.split_slash path) with
       | [] => "/"
       | es => List.last es ""
       end.

End filepath.

Arguments filepath.Clean : simpl never.
Arguments filepath.Join : simpl never.
Arguments filepath.Dir : simpl never.

(** ** Errors, file modes and file information *)

(** Go [error] values, as far as the package tells them apart:
    [*fs.PathError], plain messages ([errors.New], [fmt.Errorf] without
    [%w]) and wrapped errors ([fmt.Errorf] with a trailing [%w]). *)
Inductive error : Type :=
| PathError (op path msg : string)
| Errorf (msg : string)
| Wrapf (msg : string) (cause : error).

Fixpoint Error (e : error) : string :=
  match e with
  | PathError op path msg => op +:+ " " +:+ path +:+ ": " +:+ msg
  | Errorf msg => msg
  | Wrapf msg cause => msg +:+ Error cause
  end.

(** The type assertion of an error to a pointer to [fs.PathError]. *)
Definition is_PathError (e : error) : bool :=
  match e with PathError _ _ _ => true | _ => false end.

Definition ErrFileNotFound (op path : string) : error :=
  PathError op path "file does not exist".

(** [fs.FileMode] is a [uint32]; bit 31 is [ModeDir], the low nine bits
    are the permission bits. *)
Definition FileMode := N.
Definition ModeDir : FileMode := N.shiftl 1 31.
Definition ModePerm : FileMode := 511%N.   (* 0o777 *)
Definition mode_0755 : FileMode := 493%N.
Definition mode_0644 : FileMode := 420%N.

(** [fs.FileInfo]; the modification time is not modelled. *)
Record FileInfo := mkFileInfo {
  fi_name : string;
  fi_size : nat;
  fi_mode : FileMode;
  fi_isDir : bool
}.

Definition bytes := list byte.
Definition bytes_of (s : string) : bytes := list_byte_of_string s.

(** ** Lexical order of a walk *)

(** [filepath.Walk] and [fs.WalkDir] visit a directory before its entries
    and the entries in the order of their names: paths are compared
    element by element. *)
Fixpoint elems_leb (a b : list string) : bool :=
  match a, b with
  | [], _ => true
  | _ :: _, [] => false
  | x :: a', y :: b' =>
      if String.eqb x y then elems_leb a' b' else String.leb x y
  end.

Definition walk_leb (a b : string) : bool :=
  elems_leb (strings.split_slash a) (strings.split_slash b).

Definition walk_le (a b : string) : Prop := Is_true (walk_leb a b).

#[local] Instance walk_le_dec : RelDecision walk_le.
Proof. intros a b. unfold walk_le. apply _. Defined.

Definition walk_sort (paths : list string) : list string :=
  merge_sort walk_le paths.

(** ** Embedded archives ([embed.FS]) *)

(** A read-only tree: slash-separated names without a leading slash, each
    a directory or a file with its bytes. *)
Record embed_entry := mkEmbedEntry {
  ee_isDir : bool;
  ee_data : bytes
}.

Record embed_FS := mkEmbedFS { embed_files : gmap string embed_entry }.

Module iofs.

Definition embed_info (name : string) (e : embed_entry) : FileInfo :=
  {| fi_name := filepath.Base name;
     fi_size := length (ee_data e);
     fi_mode := if ee_isDir e then N.lor ModeDir 365%N else 292%N;
     fi_isDir := ee_isDir e |}.

(** [fs.ReadFile(fsys, name)] *)
Definition ReadFile (fsys : embed_FS) (name : string) : bytes * option error :=
  match embed_files fsys !! name with
  | None => ([], Some (ErrFileNotFound "open" name))
  | Some e =>
      if ee_isDir e then ([], Some (PathError "read" name "is a directory"))
      else (ee_data e, None)
  end.

(** [fs.Stat(fsys, name)] *)
Definition Stat (fsys : embed_FS) (name : string) : FileInfo + error :=
  match embed_files fsys !! name with
  | None => inr (ErrFileNotFound "open" name)
  | Some e => inl (embed_info name e)
  end.

(** The visits of [fs.WalkDir(fsys, root, fn)] while [fn] returns nil:
    the root and every entry beneath it, in lexical order; a missing
    root is reported to [fn] once, with the error. *)
Definition WalkDir (fsys : embed_FS) (root : string)
  : list (string * option FileInfo * option error) :=
  match embed_files fsys !! root with
  | None => [(root, None, Some (ErrFileNotFound "open" root))]
  | Some _ =>
      let under (name : string) :=
        String.eqb name root || String.eqb root "."
        || strings.HasPrefix name (root +:+ "/") in
      omap (fun name =>
              match embed_files fsys !! name with
              | Some e => Some (name, Some (embed_info name e), None)
              | None => None
              end)
           (walk_sort (filter (fun n => Is_true (under n))
                              (map fst (map_to_list (embed_files fsys)))))
  end.

End iofs.

(** ** Iterating over a Go map *)

(** [for k, v := range m] visits every entry once, in an order the
    language leaves unspecified and chooses anew at each [range]
    statement: any enumeration of the entries.  An instance is the
    choice made for one call of the facade; what a later call chooses
    is another instance. *)
Class MapRange := {
  range_map : ∀ {V : Type}, gmap string V → list (string * V);
  range_map_perm : ∀ {V : Type} (m : gmap string V), range_map m ≡ₚ map_to_list m
}.

(** One admissible order. *)
Definition range_in_key_order : MapRange :=
  {| range_map := fun V (m : gmap string V) => map_to_list m;
     range_map_perm := fun V m => reflexivity _ |}.

(** ** A walk as a sequence of visits *)

(** What a walk hands to its [filepath.WalkFunc]: the path, the file
    information (nil on error) and the error. *)
Definition visit : Type := string * option FileInfo * option error.

(** A [filepath.WalkFunc] closing over state [A] returns an error and the
    new state. *)
Definition WalkFunc (A : Type) : Type :=
  string → option FileInfo → option error → A → option error * A.

(** The walk calls [walkFn] on each visit in turn and stops at the first
    error it returns, which becomes the result of the walk.  None of the
    callbacks of this package returns [filepath.SkipDir]. *)
Fixpoint walk_visits {A : Type} (walkFn : WalkFunc A) (visits : list visit) (a : A)
  : option error * A :=
  match visits with
  | [] => (None, a)
  | (path, info, err) :: rest =>
      match walkFn path info err a with
      | (Some e, a') => (Some e, a')
      | (None, a') => walk_visits walkFn rest a'
      end
  end.

(** ** The bundled registry (bundled.go) *)

(** [BundledFS] handles embedded filesystem access. *)
Record BundledFS := mkBundledFS {
  b_embedFS : embed_FS;
  b_prefix : string;
  b_subdir : string
}.

(** [BundledManager]: the [bundled] map from prefix (with its [://]) to
    [BundledFS].  The mutex is not modelled: calls are sequential here. *)
Abbreviation BundledManager := (gmap string BundledFS).

Definition NewBundledManager : BundledManager := ∅.

(** [BundledManager.Register] *)
Definition Register (bm : BundledManager) (prefix : string) (embedFS : embed_FS)
    (subdir : string) : option error * BundledManager :=
  let prefix :=
    if strings.HasSuffix prefix "://" then prefix else prefix +:+ "://" in
  let bundled :=
    {| b_embedFS := embedFS;
       b_prefix := strings.TrimSuffix prefix "://";
       b_subdir := subdir |} in
  (None, <[prefix := bundled]> bm).

(** The loop of [GetBundledFS] over the entries in the order [range]
    yields them. *)
Fixpoint GetBundledFS_range (entries : list (string * BundledFS)) (path : string)
  : option BundledFS * string * bool :=
  match entries with
  | [] => (None, "", false)
  | (prefix, bundled) :: rest =>
      if strings.HasPrefix path prefix
      then (Some bundled, strings.TrimPrefix path prefix, true)
      else GetBundledFS_range rest path
  end.

(** The loop of [IsBundledPath]. *)
Fixpoint IsBundledPath_range (entries : list (string * BundledFS)) (path : string)
  : bool :=
  match entries with
  | [] => false
  | (prefix, _) :: rest =>
      if strings.HasPrefix path prefix then true
      else IsBundledPath_range rest path
  end.

Section bundled.
Context `{MapRange}.

(** [BundledManager.GetBundledFS] *)
Definition GetBundledFS (bm : BundledManager) (path : string)
  : option BundledFS * string * bool :=
  GetBundledFS_range (range_map bm) path.

(** [BundledManager.IsBundledPath] *)
Definition IsBundledPath (bm : BundledManager) (path : string) : bool :=
  IsBundledPath_range (range_map bm) path.

(** [BundledManager.ListRegistered] *)
Definition ListRegistered (bm : BundledManager) : list string :=
  map (fun entry => strings.TrimSuffix (fst entry) "://") (range_map bm).

End bundled.

(** [BundledFS.getFullPath] *)
Definition getFullPath (b : BundledFS) (path : string) : string :=
  if String.eqb (b_subdir b) "" then path
  else filepath.Join (b_subdir b) path.

(** [BundledFS.getOriginalPath] *)
Definition getOriginalPath (b : BundledFS) (fullPath : string) : string :=
  if String.eqb (b_subdir b) "" then fullPath
  else strings.TrimPrefix fullPath (b_subdir b +:+ "/").

Module Bundled.

Definition ReadFile (b : BundledFS) (path : string) : bytes * option error :=
  iofs.ReadFile (b_embedFS b) (getFullPath b path).

Definition Stat (b : BundledFS) (path : string) : FileInfo + error :=
  iofs.Stat (b_embedFS b) (getFullPath b path).

Definition Exists (b : BundledFS) (path : string) : bool :=
  match Stat b path with inl _ => true | inr _ => false end.

Definition IsDir (b : BundledFS) (path : string) : bool :=
  match Stat b path with
  | inl stat => fi_isDir stat
  | inr _ => false
  end.

(** The callback [BundledFS.Walk] gives to [fs.WalkDir]: an error is
    passed on with the archive's own path, otherwise the path is turned
    back into its [prefix://] form. *)
Definition to_url (b : BundledFS) (v : visit) : visit :=
  match v with
  | (path, _, Some err) => (path, None, Some err)
  | (path, info, None) =>
      (b_prefix b +:+ "://" +:+ getOriginalPath b path, info, None)
  end.

Definition Walk {A : Type} (b : BundledFS) (root : string) (walkFn : WalkFunc A)
    (a : A) : option error * A :=
  walk_visits walkFn
    (map (to_url b) (iofs.WalkDir (b_embedFS b) (getFullPath b root))) a.

End Bundled.

(** ** The directories on the way to a path *)

(** The rooted path with the given elements. *)
Definition rooted (elems : list string) : string :=
  "/" +:+ strings.join_slash elems.

(** The directories on the way to the absolute path [name], the root
    first and (the cleaned) [name] itself last. *)
Definition lineage (name : string) : list string :=
  let elems := filepath.clean_elems name in
  map (fun i => rooted (take i elems)) (seq 0 (S (length elems))).

(** The directories above [name]: its lineage without [name]. *)
Definition parents (name : string) : list string :=
  let elems := filepath.clean_elems name in
  map (fun i => rooted (take i elems)) (seq 0 (length elems)).

Arguments lineage : simpl never.
Arguments parents : simpl never.

(** ** The backing store ([afero.Fs]) *)

(** The capabilities the facade uses of its store, through [afero.Fs] and
    the helpers of [afero.Afero]: each takes the store and returns Go's
    results, with the new store for the calls that change it; [Stat]
    returns either the information or the error.  [fs_Walk] gives the
    visits of [afero.Walk] from a root. *)
Class Fs (S : Type) := {
  fs_MkdirAll : S → string → FileMode → option error * S;
  fs_WriteFile : S → string → bytes → FileMode → option error * S;
  fs_ReadFile : S → string → bytes * option error;
  fs_Stat : S → string → FileInfo + error;
  fs_Remove : S → string → option error * S;
  fs_RemoveAll : S → string → option error * S;
  fs_Walk : S → string → list visit
}.

(** ** The memory store ([afero.MemMapFs]) *)

(** The store behind Memory and Hybrid instances and behind every clone,
    modelled at the level of its contract: a map from cleaned path names to
    entries, which creates missing parent directories on demand and whose
    listings are the names below a directory. *)
Record mem_file := mkMemFile {
  mf_dir : bool;
  mf_data : bytes;
  mf_mode : FileMode
}.

Abbreviation MemMapFs := (gmap string mem_file).

Module mem.

(** Permission, setuid, setgid and sticky bits. *)
Definition chmodBits : FileMode :=
  N.lor ModePerm (N.lor (N.shiftl 1 23) (N.lor (N.shiftl 1 22) (N.shiftl 1 20))).

Definition normalizePath (path : string) : string :=
  let path := filepath.Clean path in
  if String.eqb path "." || String.eqb path ".." then "/" else path.

Definition CreateDir (perm : FileMode) : mem_file :=
  {| mf_dir := true; mf_data := [];
     mf_mode := N.lor ModeDir (N.land perm chmodBits) |}.

Definition CreateFile (data : bytes) (perm : FileMode) : mem_file :=
  {| mf_dir := false; mf_data := data; mf_mode := N.land perm chmodBits |}.

(** Create each directory of [dirs] that does not exist yet. *)
Definition mkdirs (m : MemMapFs) (dirs : list string) (perm : FileMode)
  : MemMapFs :=
  foldr (fun d acc =>
           match acc !! d with
           | Some _ => acc
           | None => <[d := CreateDir perm]> acc
           end) m dirs.

(** The root always exists. *)
Definition NewMemMapFs : MemMapFs := {[ "/" := CreateDir mode_0755 ]}.

Definition MkdirAll (m : MemMapFs) (path : string) (perm : FileMode)
  : option error * MemMapFs :=
  (None, mkdirs m (lineage (normalizePath path)) perm).

(** [afero.WriteFile]: open with create and truncate, write, close.  An
    existing entry keeps its kind and mode and gets the data; a new file
    is registered with its parents. *)
Definition WriteFile (m : MemMapFs) (filename : string) (data : bytes)
    (perm : FileMode) : option error * MemMapFs :=
  let name := normalizePath filename in
  match m !! name with
  | Some f =>
      (None, <[name := {| mf_dir := mf_dir f; mf_data := data;
                          mf_mode := mf_mode f |}]> m)
  | None =>
      (None, <[name := CreateFile data perm]> (mkdirs m (parents name) 0%N))
  end.

Definition ReadFile (m : MemMapFs) (filename : string) : bytes * option error :=
  let name := normalizePath filename in
  match m !! name with
  | Some f => (mf_data f, None)
  | None => ([], Some (ErrFileNotFound "open" name))
  end.

Definition GetFileInfo (name : string) (f : mem_file) : FileInfo :=
  {| fi_name := filepath.Base name;
     fi_size := if mf_dir f then 42 else length (mf_data f);
     fi_mode := mf_mode f;
     fi_isDir := mf_dir f |}.

Definition Stat (m : MemMapFs) (path : string) : FileInfo + error :=
  let name := normalizePath path in
  match m !! name with
  | Some f => inl (GetFileInfo name f)
  | None => inr (ErrFileNotFound "open" name)
  end.

Definition Remove (m : MemMapFs) (path : string) : option error * MemMapFs :=
  let name := normalizePath path in
  match m !! name with
  | Some _ => (None, delete name m)
  | None => (Some (ErrFileNotFound "remove" name), m)
  end.

Definition RemoveAll (m : MemMapFs) (path : string)
  : option error * MemMapFs :=
  let name := normalizePath path in
  (None, filter (fun kv => ¬ (kv.1 = name
                              ∨ Is_true (strings.HasPrefix kv.1 (name +:+ "/"))))
                m).

(** Is [name] a cleaned name strictly below the directory [dir]? *)
Definition below (dir name : string) : bool :=
  String.eqb (normalizePath name) name
  && negb (String.eqb name dir)
  && (if String.eqb dir "/" then filepath.IsAbs name
      else strings.HasPrefix name (dir +:+ "/")).

(** [afero.Walk]: a missing root is reported with its error; otherwise
    the root is visited under the name given, then, if it is a
    directory, every entry below it under its own name, in lexical
    order. *)
Definition Walk (m : MemMapFs) (root : string) : list visit :=
  let dir := normalizePath root in
  match m !! dir with
  | None => [(root, None, Some (ErrFileNotFound "open" dir))]
  | Some f =>
      (root, Some (GetFileInfo dir f), None)
      :: (if mf_dir f then
            omap (fun name =>
                    match m !! name with
                    | Some g => Some (name, Some (GetFileInfo name g), None)
                    | None => None
                    end)
                 (walk_sort (filter (fun n => Is_true (below dir n))
                                    (map fst (map_to_list m))))
          else [])
  end.

End mem.

Arguments mem.normalizePath : simpl never.
Arguments mem.mkdirs : simpl never.

#[export] Instance MemMapFs_Fs : Fs MemMapFs := {|
  fs_MkdirAll := mem.MkdirAll;
  fs_WriteFile := mem.WriteFile;
  fs_ReadFile := mem.ReadFile;
  fs_Stat := mem.Stat;
  fs_Remove := mem.Remove;
  fs_RemoveAll := mem.RemoveAll;
  fs_Walk := mem.Walk
|}.

(** ** The watch subsystem (watch.go) *)

Inductive WatchOp :=
| WatchOpCreate | WatchOpWrite | WatchOpRemove | WatchOpRename | WatchOpChmod.

Record WatchEvent := mkWatchEvent {
  we_Path : string;
  we_Op : WatchOp;
  we_IsDir : bool;
  we_Error : option error
}.

(** A [WatchAction] is a callback; the model never runs one, so a handle
    stands for it. *)
Definition WatchAction := nat.

(** [fsnotify.Watcher]: the paths being watched, and the paths the
    operating system is able to watch. *)
Record Watcher := mkWatcher {
  watched : gset string;
  observable : gset string
}.

Module fsnotify.

Definition Add (w : Watcher) (name : string) : option error * Watcher :=
  if decide (name ∈ observable w)
  then (None, {| watched := {[name]} ∪ watched w; observable := observable w |})
  else (Some (Errorf "no such file or directory"), w).

Definition Remove (w : Watcher) (name : string) : option error * Watcher :=
  if decide (name ∈ watched w)
  then (None, {| watched := watched w ∖ {[name]}; observable := observable w |})
  else (Some (Errorf ("fsnotify: can't remove non-existent watch: " +:+ name)), w).

Definition Close (w : Watcher) : option error * Watcher :=
  (None, {| watched := ∅; observable := observable w |}).

End fsnotify.

(** [WatchManager]; a nil pointer is [None]. *)
Record WatchManager := mkWatchManager {
  watcher : Watcher;
  watches : gmap string WatchAction;
  rootPath : string;
  closed : bool
}.

Section watch.
Context `{MapRange}.
(** [filepath.Match(pattern, name)]: whether the shell pattern matches,
    or [ErrBadPattern]. *)
Variable Match : string → string → bool * option error.

(** [WatchManager.pathMatches] *)
Definition pathMatches (filePath watchPath : string) : bool :=
  if String.eqb filePath watchPath then true
  else if String.eqb watchPath "/"
          || filepath.HasPrefix filePath (watchPath +:+ "/") then true
  else match Match watchPath filePath with
       | (_, Some _) => false
       | (matched, None) => matched
       end.

(** The disk path of a watched VFS path. *)
Definition watch_diskPath (wm : WatchManager) (path : string) : string :=
  if String.eqb path "/" then rootPath wm
  else filepath.Join (rootPath wm) (strings.TrimPrefix path "/").

(** [WatchManager.Watch] *)
Definition WatchManager_Watch (wm : option WatchManager) (path : string)
    (action : WatchAction) : option error * option WatchManager :=
  match wm with
  | None => (Some (Errorf "watch manager is not available"), wm)
  | Some m =>
      if closed m then (Some (Errorf "watch manager is not available"), wm)
      else
        match fsnotify.Add (watcher m) (watch_diskPath m path) with
        | (Some err, _) =>
            (Some (Wrapf ("failed to watch path " +:+ path +:+ ": ") err), wm)
        | (None, w) =>
            (None, Some {| watcher := w;
                           watches := <[path := action]> (watches m);
                           rootPath := rootPath m; closed := closed m |})
        end
  end.

(** [WatchManager.StopWatch]: a failure to remove the native watch is
    only logged. *)
Definition WatchManager_StopWatch (wm : option WatchManager) (path : string)
  : option error * option WatchManager :=
  match wm with
  | None => (None, wm)
  | Some m =>
      if closed m then (None, wm)
      else
        let w := (fsnotify.Remove (watcher m) (watch_diskPath m path)).2 in
        (None, Some {| watcher := w; watches := delete path (watches m);
                       rootPath := rootPath m; closed := closed m |})
  end.

(** [WatchManager.StopAllWatches] *)
Definition WatchManager_StopAllWatches (wm : option WatchManager)
  : option error * option WatchManager :=
  match wm with
  | None => (None, wm)
  | Some m =>
      if closed m then (None, wm)
      else
        let w :=
          fold_left
            (fun w entry =>
               (fsnotify.Remove w
                  (filepath.Join (rootPath m)
                     (strings.TrimPrefix (fst entry) "/"))).2)
            (range_map (watches m)) (watcher m) in
        (None, Some {| watcher := w; watches := ∅;
                       rootPath := rootPath m; closed := closed m |})
  end.

(** [WatchManager.IsWatching] *)
Definition WatchManager_IsWatching (wm : option WatchManager) (path : string)
  : bool :=
  match wm with
  | None => false
  | Some m => if closed m then false else bool_decide (is_Some (watches m !! path))
  end.

(** [WatchManager.Close]: the manager is marked closed before
    [StopAllWatches] is called, then the native watcher is closed. *)
Definition WatchManager_Close (wm : option WatchManager)
  : option error * option WatchManager :=
  match wm with
  | None => (None, wm)
  | Some m =>
      if closed m then (None, wm)
      else
        let m1 := Some {| watcher := watcher m; watches := watches m;
                          rootPath := rootPath m; closed := true |} in
        match (WatchManager_StopAllWatches m1).2 with
        | Some m2 =>
            let '(err, w) := fsnotify.Close (watcher m2) in
            (err, Some {| watcher := w; watches := watches m2;
                          rootPath := rootPath m2; closed := closed m2 |})
        | None => (None, None)
        end
  end.

End watch.

(** ** The facade (main.go, vfs.go) *)

Inductive VFSType := VFSTypeMemory | VFSTypeDisk | VFSTypeHybrid.

(** [VFS] over a store of type [S].  The [afero] field wraps the same
    store as [fs] and is not kept apart; the logger only reports and is
    left out. *)
Record VFS (S : Type) := mkVFS {
  fs : S;
  root : string;
  vfsType : VFSType;
  bundledManager : BundledManager;
  watchManager : option WatchManager;
  diskPath : string
}.
Arguments mkVFS {S}.
Arguments fs {S}.
Arguments root {S}.
Arguments vfsType {S}.
Arguments bundledManager {S}.
Arguments watchManager {S}.
Arguments diskPath {S}.

Definition with_fs {S T : Type} (v : VFS S) (s : T) : VFS T :=
  {| fs := s; root := root v; vfsType := vfsType v;
     bundledManager := bundledManager v; watchManager := watchManager v;
     diskPath := diskPath v |}.

Definition with_watchManager {S : Type} (v : VFS S) (wm : option WatchManager)
  : VFS S :=
  {| fs := fs v; root := root v; vfsType := vfsType v;
     bundledManager := bundledManager v; watchManager := wm;
     diskPath := diskPath v |}.

(** An [Option] configures VFS creation; the package offers three. *)
Inductive Option :=
| WithLogger
| WithRoot (root : string)
| WithType (vfsType : VFSType).

(** What [New] has set before it picks the store: the defaults, then each
    option in turn. *)
Record config := mkConfig { cfg_root : string; cfg_type : VFSType }.

Definition apply_option (c : config) (opt : Option) : config :=
  match opt with
  | WithLogger => c
  | WithRoot root => {| cfg_root := filepath.Clean root; cfg_type := cfg_type c |}
  | WithType t => {| cfg_root := cfg_root c; cfg_type := t |}
  end.

Definition configure (opts : list Option) : config :=
  fold_left apply_option opts {| cfg_root := "/"; cfg_type := VFSTypeMemory |}.

(** [New], cases [VFSTypeMemory] and [VFSTypeHybrid] of its switch. *)
Definition New_memory (c : config) : VFS MemMapFs :=
  {| fs := mem.NewMemMapFs; root := cfg_root c; vfsType := cfg_type c;
     bundledManager := NewBundledManager; watchManager := None;
     diskPath := "" |}.

(** [NewWatchManager]: nil when the native watcher cannot be created. *)
Definition NewWatchManager (NewWatcher : option Watcher) (rootPath : string)
  : option WatchManager :=
  match NewWatcher with
  | None => None
  | Some w => Some {| watcher := w; watches := ∅; rootPath := rootPath;
                      closed := false |}
  end.

(** [New], case [VFSTypeDisk]: the store is the operating system's tree
    below the root, [NewBasePathFs root]. *)
Definition New_disk {D : Type} (NewBasePathFs : string → D)
    (NewWatcher : option Watcher) (c : config) : VFS D :=
  let root := if String.eqb (cfg_root c) "/" then "." else cfg_root c in
  {| fs := NewBasePathFs root; root := root; vfsType := cfg_type c;
     bundledManager := NewBundledManager;
     watchManager := NewWatchManager NewWatcher root;
     diskPath := root |}.

(** The factory functions append the type, so that it is applied last. *)
Definition NewMemoryVFS (opts : list Option) : VFS MemMapFs :=
  New_memory (configure (opts ++ [WithType VFSTypeMemory])).

Definition NewHybridVFS (opts : list Option) : VFS MemMapFs :=
  New_memory (configure (opts ++ [WithType VFSTypeHybrid])).

Definition NewDiskVFS {D : Type} (NewBasePathFs : string → D)
    (NewWatcher : option Watcher) (rootPath : string) (opts : list Option)
  : VFS D :=
  New_disk NewBasePathFs NewWatcher
    (configure (opts ++ [WithType VFSTypeDisk; WithRoot rootPath])).

(** [VFS.RegisterBundled] *)
Definition RegisterBundled {S : Type} (v : VFS S) (prefix : string)
    (embedFS : embed_FS) (subdir : string) : option error * VFS S :=
  let '(err, bm) := Register (bundledManager v) prefix embedFS subdir in
  (err, {| fs := fs v; root := root v; vfsType := vfsType v;
           bundledManager := bm; watchManager := watchManager v;
           diskPath := diskPath v |}).

Section facade.
Context `{MapRange}.

Section store.
Context {S : Type} `{Fs S}.

(** [VFS.normalizePath] ensures path is absolute within the VFS. *)
Definition normalizePath (v : VFS S) (path : string) : string :=
  if IsBundledPath (bundledManager v) path then path
  else if negb (filepath.IsAbs path) then filepath.Join "/" path
  else path.

(** [VFS.ReadFile] *)
Definition ReadFile (v : VFS S) (filename : string) : bytes * option error :=
  match GetBundledFS (bundledManager v) filename with
  | (Some bundled, bundledPath, true) => Bundled.ReadFile bundled bundledPath
  | _ => fs_ReadFile (fs v) (normalizePath v filename)
  end.

(** [VFS.WriteFile] *)
Definition WriteFile (v : VFS S) (filename : string) (data : bytes)
    (perm : FileMode) : option error * VFS S :=
  if IsBundledPath (bundledManager v) filename
  then (Some (Errorf ("cannot write to bundled URL: " +:+ filename)), v)
  else
    let vfsPath := normalizePath v filename in
    match fs_MkdirAll (fs v) (filepath.Dir vfsPath) mode_0755 with
    | (Some err, s) => (Some err, with_fs v s)
    | (None, s) =>
        let '(err, s') := fs_WriteFile s vfsPath data perm in
        (err, with_fs v s')
    end.

(** [VFS.Stat] *)
Definition Stat (v : VFS S) (path : string) : FileInfo + error :=
  match GetBundledFS (bundledManager v) path with
  | (Some bundled, bundledPath, true) => Bundled.Stat bundled bundledPath
  | _ => fs_Stat (fs v) (normalizePath v path)
  end.

(** [VFS.Exists]: [afero.Exists] reports true when [Stat] succeeds; its
    error is dropped. *)
Definition Exists (v : VFS S) (path : string) : bool :=
  match GetBundledFS (bundledManager v) path with
  | (Some bundled, bundledPath, true) => Bundled.Exists bundled bundledPath
  | _ => match fs_Stat (fs v) (normalizePath v path) with
         | inl _ => true
         | inr _ => false
         end
  end.

(** [VFS.IsDir] *)
Definition IsDir (v : VFS S) (path : string) : bool :=
  match GetBundledFS (bundledManager v) path with
  | (Some bundled, bundledPath, true) => Bundled.IsDir bundled bundledPath
  | _ => match fs_Stat (fs v) (normalizePath v path) with
         | inl info => fi_isDir info
         | inr _ => false
         end
  end.

(** [VFS.MkdirAll] *)
Definition MkdirAll (v : VFS S) (path : string) (perm : FileMode)
  : option error * VFS S :=
  if IsBundledPath (bundledManager v) path
  then (Some (Errorf ("cannot create directories in bundled URL: " +:+ path)), v)
  else
    let '(err, s) := fs_MkdirAll (fs v) (normalizePath v path) perm in
    (err, with_fs v s).

(** [VFS.Remove] *)
Definition Remove (v : VFS S) (path : string) : option error * VFS S :=
  if IsBundledPath (bundledManager v) path
  then (Some (Errorf ("cannot remove bundled URL: " +:+ path)), v)
  else
    let '(err, s) := fs_Remove (fs v) (normalizePath v path) in
    (err, with_fs v s).

(** [VFS.RemoveAll] *)
Definition RemoveAll (v : VFS S) (path : string) : option error * VFS S :=
  if IsBundledPath (bundledManager v) path
  then (Some (Errorf ("cannot remove bundled URL: " +:+ path)), v)
  else
    let '(err, s) := fs_RemoveAll (fs v) (normalizePath v path) in
    (err, with_fs v s).

(** [VFS.Walk] *)
Definition Walk {A : Type} (v : VFS S) (root : string) (walkFn : WalkFunc A)
    (a : A) : option error * A :=
  match GetBundledFS (bundledManager v) root with
  | (Some bundled, bundledPath, true) => Bundled.Walk bundled bundledPath walkFn a
  | _ => walk_visits walkFn (fs_Walk (fs v) (normalizePath v root)) a
  end.

End store.

(** The clone before the walk: an empty memory store, the root and the
    registry of the original. *)
Definition Clone_init {S : Type} (v : VFS S) : VFS MemMapFs :=
  {| fs := mem.NewMemMapFs; root := root v; vfsType := VFSTypeMemory;
     bundledManager := bundledManager v; watchManager := None;
     diskPath := "" |}.

(** The callback [Clone] walks the original with: errors and directories
    end the visit, bundled paths are skipped, every other file is read
    from the original and written to the clone with its mode.  A walk
    passes file information whenever it passes no error; the case without
    both is never met. *)
Definition Clone_walkFn {S : Type} `{Fs S} (v : VFS S) : WalkFunc (VFS MemMapFs) :=
  fun path info err clone =>
    match err, info with
    | Some e, _ => (Some e, clone)
    | None, None => (None, clone)
    | None, Some info =>
        if fi_isDir info then (None, clone)
        else if IsBundledPath (bundledManager v) path then (None, clone)
        else
          match ReadFile v path with
          | (_, Some readErr) => (Some readErr, clone)
          | (data, None) => WriteFile clone path data (fi_mode info)
          end
    end.

(** [VFS.Clone] creates a deep copy of the VFS: always memory-based,
    sharing the bundled registry.  The result of the walk is dropped. *)
Definition Clone {S : Type} `{Fs S} (v : VFS S) : VFS MemMapFs :=
  let clone := Clone_init v in
  (Walk v "/" (Clone_walkFn v) clone).2.

(** The watch calls of the facade delegate to the watch manager if there
    is one. *)
Definition Watch {S : Type} (v : VFS S) (path : string) (action : WatchAction)
  : option error * VFS S :=
  match watchManager v with
  | None => (Some (Errorf "watching is only available for disk-based VFS"), v)
  | Some _ =>
      let '(err, wm) := WatchManager_Watch (watchManager v) path action in
      (err, with_watchManager v wm)
  end.

Definition StopWatch {S : Type} (v : VFS S) (path : string)
  : option error * VFS S :=
  match watchManager v with
  | None => (Some (Errorf "watching is only available for disk-based VFS"), v)
  | Some _ =>
      let '(err, wm) := WatchManager_StopWatch (watchManager v) path in
      (err, with_watchManager v wm)
  end.

Definition StopAllWatches {S : Type} (v : VFS S) : option error * VFS S :=
  match watchManager v with
  | None => (Some (Errorf "watching is only available for disk-based VFS"), v)
  | Some _ =>
      let '(err, wm) := WatchManager_StopAllWatches (watchManager v) in
      (err, with_watchManager v wm)
  end.

Definition IsWatching {S : Type} (v : VFS S) (path : string) : bool :=
  match watchManager v with
  | None => false
  | Some _ => WatchManager_IsWatching (watchManager v) path
  end.

Definition Close {S : Type} (v : VFS S) : option error * VFS S :=
  match watchManager v with
  | Some _ =>
      let '(err, wm) := WatchManager_Close (watchManager v) in
      (err, with_watchManager v wm)
  | None => (None, v)
  end.

End facade.



(** ** [Dump] *)

(** An [io.Writer] value: the nil interface, a [bytes.Buffer] with what
    was written so far, or a writer whose [Write] fails. *)
Inductive Writer :=
| NilWriter
| Buffer (written : string)
| BrokenWriter (err : error).

(** A call either returns or panics. *)
Inductive outcome (A : Type) :=
| Returns (a : A)
| Panics.
Arguments Returns {A}.
Arguments Panics {A}.

Definition obind {A B : Type} (x : outcome A) (k : A → outcome B) : outcome B :=
  match x with
  | Returns a => k a
  | Panics => Panics
  end.

Notation "x ←! c ;; k" := (obind c (fun x => k))
  (at level 100, c at next level, right associativity).

(** The line feed. *)
Definition LF : string := String "010"%char EmptyString.

(** [io.WriteString(w, s)]: calling [Write] on the nil interface is a nil
    pointer dereference. *)
Definition io_WriteString (w : Writer) (s : string)
  : outcome (Writer * option error) :=
  match w with
  | NilWriter => Panics
  | Buffer written => Returns (Buffer (written +:+ s), None)
  | BrokenWriter err => Returns (w, Some err)
  end.

(** [sort.Strings] *)
Definition sort_Strings (l : list string) : list string :=
  merge_sort (fun a b => Is_true (String.leb a b)) l.

(** [printTree]: the entries of [root] in order, each followed by its own
    subtree.  [depth] bounds the nesting. *)
Fixpoint printTree (depth : nat) (w : Writer) (tree : gmap string (list string))
    (root indent : string) : outcome Writer :=
  match depth with
  | O => Returns w
  | S depth' =>
      let entries := sort_Strings (default [] (tree !! root)) in
      (fix each (i : nat) (todo : list string) (w : Writer) : outcome Writer :=
         match todo with
         | [] => Returns w
         | path :: todo' =>
             let isLast := Nat.eqb i (length entries - 1) in
             let connector := if isLast then "└── " else "├── " in
             let baseName := filepath.Base path in
             r ←! io_WriteString w (indent +:+ connector +:+ baseName +:+ LF) ;;
             w1 ←! (match tree !! path with
                    | Some _ =>
                        let newIndent :=
                          if isLast then indent +:+ "    "
                          else indent +:+ "│   " in
                        printTree depth' r.1 tree path newIndent
                    | None => Returns r.1
                    end) ;;
             each (S i) todo' w1
         end) 0 entries w
  end.

(** [tree[parent] = append(tree[parent], path)] *)
Definition tree_add (tree : gmap string (list string)) (parent path : string)
  : gmap string (list string) :=
  <[parent := default [] (tree !! parent) ++ [path]]> tree.

Section dump.
Context `{MapRange} {S : Type} `{Fs S}.

(** The callback of the walk over the primary filesystem. *)
Definition Dump_walkFn : WalkFunc (gmap string (list string)) :=
  fun path info err tree =>
    match err with
    | Some e => (Some e, tree)
    | None =>
        if String.eqb path "/" then (None, tree)
        else
          let parent := filepath.Dir path in
          let parent := if String.eqb parent "." then "/" else parent in
          (None, tree_add tree parent path)
    end.

(** The callback of the walk over one bundled filesystem. *)
Definition Dump_bundleFn (prefix : string) : WalkFunc (gmap string (list string)) :=
  fun path info err bundleTree =>
    match err with
    | Some e => (Some e, bundleTree)
    | None =>
        let cleanPath := strings.TrimPrefix path (prefix +:+ "://") in
        if String.eqb cleanPath "" || String.eqb cleanPath "."
        then (None, bundleTree)
        else
          let parent := filepath.Dir cleanPath in
          let parent := if String.eqb parent "." then "" else parent in
          (None, tree_add bundleTree parent cleanPath)
    end.

(** The loop over the registered prefixes. *)
Fixpoint Dump_bundles (v : VFS S) (prefixes : list string) (w : Writer)
  : outcome Writer :=
  match prefixes with
  | [] => Returns w
  | prefix :: rest =>
      r ←! io_WriteString w ("Bundle [" +:+ prefix +:+ "://]:" +:+ LF) ;;
      match GetBundledFS (bundledManager v) (prefix +:+ "://") with
      | (Some bundledFS, _, true) =>
          let bundleTree :=
            (Bundled.Walk bundledFS "" (Dump_bundleFn prefix) ∅).2 in
          w1 ←! printTree (1 + size bundleTree) r.1 bundleTree "" "  " ;;
          Dump_bundles v rest w1
      | _ => Dump_bundles v rest r.1
      end
  end.

(** [VFS.Dump]: every result of [io.WriteString] is dropped; the only
    error returned is one of the walk that is not a [PathError]. *)
Definition Dump (v : VFS S) (writer : Writer) : outcome (option error * Writer) :=
  r ←! io_WriteString writer ("--- VFS Root ---" +:+ LF) ;;
  let '(err, tree) := Walk v "/" Dump_walkFn ∅ in
  if match err with Some e => negb (is_PathError e) | None => false end
  then Returns (err, r.1)
  else
    w1 ←! printTree (1 + size tree) r.1 tree "/" "" ;;
    let registeredPrefixes := ListRegistered (bundledManager v) in
    w2 ←! (if (0 <? length registeredPrefixes)%nat then
             r2 ←! io_WriteString w1
                     (LF +:+ "--- Bundled Filesystems ---" +:+ LF) ;;
             Dump_bundles v registeredPrefixes r2.1
           else Returns w1) ;;
    Returns (None, w2).

End dump.

(** * Notions and sample data used by the properties *)

(** The key under which [Register] files a prefix. *)
Definition registry_key (prefix : string) : string :=
  if strings.HasSuffix prefix "://" then prefix else prefix +:+ "://".

Definition sample_archive (content : string) : embed_FS :=
  mkEmbedFS (list_to_map
    [(".", mkEmbedEntry true []);
     ("lib", mkEmbedEntry true []);
     ("lib/core.txt", mkEmbedEntry false (bytes_of content))]).

(** A hybrid instance with one bundled archive and one file. *)
Definition sample_hybrid : VFS MemMapFs :=
  let v := (RegisterBundled (NewHybridVFS []) "stdlib"
              (sample_archive "core") "lib").2 in
  (@WriteFile range_in_key_order _ _ v "/main.go" (bytes_of "package main")
     mode_0644).2.

(** A matcher for patterns without metacharacters, to run the rules. *)
Definition literal_Match (pattern name : string) : bool * option error :=
  (String.eqb pattern name, None).



(** Another admissible order of iteration. *)
Definition range_in_reverse_key_order : MapRange :=
  {| range_map := fun V (m : gmap string V) => rev (map_to_list m);
     range_map_perm := fun V m => Permutation_sym (Permutation_rev _) |}.

(** Only [New]'s disk case creates a watch manager, and no call changes
    the type of an instance: an instance that is not of disk type has
    none. *)
Definition no_watcher_unless_disk {S : Type} (v : VFS S) : Prop :=
  vfsType v ≠ VFSTypeDisk → watchManager v = None.

(** A path element that [Clean] keeps in a rooted path: a name, neither
    empty nor a dot element, without a slash. *)
Definition is_name (e : string) : Prop :=
  e ≠ "" ∧ e ≠ "." ∧ e ≠ ".." ∧ strings.contains_slash e = false.



(** ** The contract of a backing store *)

Section observations.
Context {S : Type} `{Fs S}.

Definition stat_isDir (s : S) (path : string) : bool :=
  match fs_Stat s path with inl info => fi_isDir info | inr _ => false end.

Definition stat_absent (s : S) (path : string) : bool :=
  match fs_Stat s path with inl _ => false | inr _ => true end.

(** The permission bits of a directory. *)
Definition dir_perm (s : S) (path : string) : option FileMode :=
  match fs_Stat s path with
  | inl info => if fi_isDir info then Some (N.land (fi_mode info) ModePerm) else None
  | inr _ => None
  end.

(** A visit without error, which for a file carries its cleaned absolute
    name, under which the file can be read. *)
Definition visit_ok (s : S) (x : visit) : Prop :=
  x.2 = None
  ∧ ∃ info, x.1.2 = Some info
      ∧ (fi_isDir info = false →
         filepath.IsAbs x.1.1 = true ∧ filepath.Clean x.1.1 = x.1.1
         ∧ ∃ data, fs_ReadFile s x.1.1 = (data, None)).

End observations.

(** What the facade relies on in its store, for absolute paths: names are
    resolved lexically; a written file reads back; writing and making
    directories leave other files alone; a failed removal changes nothing;
    [MkdirAll] makes the whole lineage unless a file is in the way and
    touches nothing else; a file can be written into an existing
    directory; and a walk from the root, when the root is a directory
    and no visit fails, passes the information of what it visits, names
    files by their cleaned absolute paths and visits every file.
    Whether a walk fails somewhere, and whether a file it visits can be
    read, depends on the state of the store and is no part of the
    contract. *)
Class FsContract (S : Type) `{Fs S} : Prop := {
  read_clean : ∀ (s : S) p,
    filepath.IsAbs p = true → fs_ReadFile s (filepath.Clean p) = fs_ReadFile s p;
  read_after_write : ∀ (s s' : S) p data perm,
    filepath.IsAbs p = true →
    fs_WriteFile s p data perm = (None, s') → fs_ReadFile s' p = (data, None);
  stat_after_write : ∀ (s s' : S) p data perm,
    filepath.IsAbs p = true →
    fs_WriteFile s p data perm = (None, s') → ∃ info, fs_Stat s' p = inl info;
  write_frame_read : ∀ (s s' : S) q data perm p old,
    filepath.IsAbs p = true → filepath.IsAbs q = true →
    fs_WriteFile s q data perm = (None, s') →
    filepath.Clean p ≠ filepath.Clean q →
    fs_ReadFile s p = (old, None) → fs_ReadFile s' p = (old, None);
  write_frame_dir : ∀ (s s' : S) q data perm p bits,
    filepath.IsAbs p = true → filepath.IsAbs q = true →
    fs_WriteFile s q data perm = (None, s') →
    filepath.Clean p ≠ filepath.Clean q →
    dir_perm s p = Some bits → dir_perm s' p = Some bits;
  write_succeeds : ∀ (s : S) p data perm,
    filepath.IsAbs p = true →
    stat_isDir s (filepath.Dir p) = true → stat_isDir s p = false →
    ∃ s', fs_WriteFile s p data perm = (None, s');
  mkdir_frame_read : ∀ (s s' : S) q perm p old,
    filepath.IsAbs p = true → filepath.IsAbs q = true →
    fs_MkdirAll s q perm = (None, s') →
    fs_ReadFile s p = (old, None) → fs_ReadFile s' p = (old, None);
  mkdir_makes_lineage : ∀ (s : S) q perm,
    filepath.IsAbs q = true →
    (∀ d, d ∈ lineage q → stat_absent s d = true ∨ stat_isDir s d = true) →
    ∃ s', fs_MkdirAll s q perm = (None, s')
          ∧ ∀ d, d ∈ lineage q →
              stat_isDir s' d = true
              ∧ (stat_absent s d = true →
                 dir_perm s' d = Some (N.land perm ModePerm));
  mkdir_only_lineage : ∀ (s s' : S) q perm p,
    filepath.IsAbs p = true → filepath.IsAbs q = true →
    fs_MkdirAll s q perm = (None, s') →
    filepath.Clean p ∉ lineage q → fs_Stat s' p = fs_Stat s p;
  remove_failure_unchanged : ∀ (s s' : S) p e,
    fs_Remove s p = (Some e, s') → s' = s;
  walk_from_root : ∀ (s : S),
    stat_isDir s "/" = true →
    Forall (fun x : visit => x.2 = None) (fs_Walk s "/") →
    (∀ x, x ∈ fs_Walk s "/" →
          ∃ info, x.1.2 = Some info
                  ∧ (fi_isDir info = false →
                     filepath.IsAbs x.1.1 = true ∧ filepath.Clean x.1.1 = x.1.1))
    ∧ ∀ p info,
        filepath.IsAbs p = true → fs_Stat s p = inl info → fi_isDir info = false →
        ∃ info', (filepath.Clean p, Some info', None) ∈ fs_Walk s "/"
                 ∧ fi_isDir info' = false
}.


(** ** A disk store with unreadable files *)

(** A store over the operating system, as far as the examples need it: a
    tree like the memory store's, and names the process may not open for
    reading. *)
Record DiskFs := mkDiskFs {
  disk_tree : MemMapFs;
  disk_denied : list string
}.

Definition disk_lift (d : DiskFs) (r : option error * MemMapFs)
  : option error * DiskFs :=
  (r.1, {| disk_tree := r.2; disk_denied := disk_denied d |}).

Definition disk_ReadFile (d : DiskFs) (filename : string) : bytes * option error :=
  let name := mem.normalizePath filename in
  if bool_decide (name ∈ disk_denied d)
  then ([], Some (PathError "open" name "permission denied"))
  else mem.ReadFile (disk_tree d) filename.

#[export] Instance DiskFs_Fs : Fs DiskFs := {|
  fs_MkdirAll := fun d path perm => disk_lift d (mem.MkdirAll (disk_tree d) path perm);
  fs_WriteFile := fun d name data perm =>
    disk_lift d (mem.WriteFile (disk_tree d) name data perm);
  fs_ReadFile := disk_ReadFile;
  fs_Stat := fun d path => mem.Stat (disk_tree d) path;
  fs_Remove := fun d path => disk_lift d (mem.Remove (disk_tree d) path);
  fs_RemoveAll := fun d path => disk_lift d (mem.RemoveAll (disk_tree d) path);
  fs_Walk := fun d root => mem.Walk (disk_tree d) root
|}.

(** A disk instance with three files, of which [/b.txt] cannot be read. *)
Definition sample_disk : VFS DiskFs :=
  let tree :=
    (mem.WriteFile
       (mem.WriteFile
          (mem.WriteFile mem.NewMemMapFs "/a.txt" (bytes_of "a") mode_0644).2
          "/b.txt" (bytes_of "b") mode_0644).2
       "/c.txt" (bytes_of "c") mode_0644).2 in
  {| fs := {| disk_tree := tree; disk_denied := ["/b.txt"] |};
     root := "."; vfsType := VFSTypeDisk;
     bundledManager := NewBundledManager; watchManager := None;
     diskPath := "." |}.

(** * Properties *)

(** ** The path functions and the memory store on examples *)

Example Clean_ex1 : filepath.Clean "/a/../b.txt" = "/b.txt".
Proof. reflexivity. Qed.
Example Clean_ex2 : filepath.Clean "a//b/./c/.." = "a/b".
Proof. reflexivity. Qed.
Example Clean_ex3 : filepath.Clean "../../a" = "../../a".
Proof. reflexivity. Qed.
Example Clean_ex4 : filepath.Clean "/../a/" = "/a".
Proof. reflexivity. Qed.
Example Clean_ex5 : filepath.Clean "" = ".".
Proof. reflexivity. Qed.
Example Join_ex1 : filepath.Join "/" "a/../b.txt" = "/b.txt".
Proof. reflexivity. Qed.
Example Join_ex2 : filepath.Join "/" "" = "/".
Proof. reflexivity. Qed.
Example Dir_ex1 : filepath.Dir "/dir/nested.txt" = "/dir".
Proof. reflexivity. Qed.
Example Dir_ex2 : filepath.Dir "/a.txt" = "/".
Proof. reflexivity. Qed.
Example Dir_ex3 : filepath.Dir "a.txt" = ".".
Proof. reflexivity. Qed.
Example Base_ex1 : filepath.Base "/dir/nested.txt" = "nested.txt".
Proof. reflexivity. Qed.
Example TrimSuffix_ex : strings.TrimSuffix "stdlib://" "://" = "stdlib".
Proof. reflexivity. Qed.

Example lineage_ex :
  lineage "/a/b/c.txt" = ["/"; "/a"; "/a/b"; "/a/b/c.txt"].
Proof. reflexivity. Qed.
Example parents_ex : parents "/a/b/c.txt" = ["/"; "/a"; "/a/b"].
Proof. reflexivity. Qed.
Example mem_walk_ex :
  map (fun v => fst (fst v))
      (mem.Walk (mem.WriteFile (mem.MkdirAll
         (mem.WriteFile mem.NewMemMapFs "/a.txt" (bytes_of "x") mode_0644).2
            "/a/b" mode_0755).2 "/a/b/c" [] mode_0644).2 "/")
  = ["/"; "/a"; "/a/b"; "/a/b/c"; "/a.txt"].
Proof. vm_compute. reflexivity. Qed.

(** ** The package's tests on the model *)

(** TestMemoryVFS *)
Example TestMemoryVFS :
  let vfs := NewMemoryVFS [] in
  let '(err, vfs) := @WriteFile range_in_key_order _ _ vfs "/test.txt"
                       (bytes_of "Hello, VFS!") mode_0644 in
  let '(err', vfs') := @MkdirAll range_in_key_order _ _ vfs "/path/to/dir"
                         mode_0755 in
  err = None
  ∧ @Exists range_in_key_order _ _ vfs "/test.txt" = true
  ∧ @ReadFile range_in_key_order _ _ vfs "/test.txt"
    = (bytes_of "Hello, VFS!", None)
  ∧ err' = None
  ∧ @IsDir range_in_key_order _ _ vfs' "/path/to/dir" = true.
Proof. vm_compute. repeat split. Qed.

(** TestVFSClone: the clone has every file, and changing it leaves the
    original alone. *)
Example TestVFSClone :
  let w v p d := (@WriteFile range_in_key_order _ _ v p (bytes_of d) mode_0644).2 in
  let original :=
    w ((@MkdirAll range_in_key_order _ _
          (w (w (NewMemoryVFS []) "/file1.txt" "Content 1")
             "/file2.txt" "Content 2") "/subdir" mode_0755).2)
      "/subdir/file3.txt" "Content 3" in
  let clone := @Clone range_in_key_order _ _ original in
  Forall (fun file =>
            @Exists range_in_key_order _ _ clone file = true
            ∧ @ReadFile range_in_key_order _ _ clone file
              = @ReadFile range_in_key_order _ _ original file)
         ["/file1.txt"; "/file2.txt"; "/subdir/file3.txt"]
  ∧ @ReadFile range_in_key_order _ _
      (w clone "/file1.txt" "Modified Content") "/file1.txt"
    = (bytes_of "Modified Content", None)
  ∧ @ReadFile range_in_key_order _ _ original "/file1.txt"
    = (bytes_of "Content 1", None).
Proof. vm_compute. repeat constructor. Qed.

(** ** The registry loops do not depend on the order of iteration, except
       in which of several matching prefixes [GetBundledFS] returns *)


Lemma GetBundledFS_range_none entries path :
  IsBundledPath_range entries path = false →
  GetBundledFS_range entries path = (None, "", false).
Proof.
  induction entries as [|[k b] entries IH]; simpl; [done|].
  destruct (strings.HasPrefix path k); [done|]. exact IH.
Qed.

Lemma GetBundledFS_range_only entries path key bundled :
  (key, bundled) ∈ entries →
  strings.HasPrefix path key = true →
  (∀ k b, (k, b) ∈ entries → strings.HasPrefix path k = true →
          k = key ∧ b = bundled) →
  GetBundledFS_range entries path
  = (Some bundled, strings.TrimPrefix path key, true).
Proof.
  induction entries as [|[k b] entries IH]; intros Hin Hp Honly.
  - by apply elem_of_nil in Hin.
  - simpl. destruct (strings.HasPrefix path k) eqn:Hk.
    + destruct (Honly k b) as [-> ->]; [left|done|done].
    + apply IH; [|done|].
      * apply elem_of_cons in Hin as [Heq|Hin]; [|done].
        inversion Heq; subst. congruence.
      * intros k' b' Hin' Hp'. apply Honly; [by right|done].
Qed.

Section registry_facts.
Context `{MapRange}.

Lemma elem_of_range_map {V : Type} (m : gmap string V) k x :
  (k, x) ∈ range_map m ↔ m !! k = Some x.
Proof. rewrite (range_map_perm m). apply elem_of_map_to_list. Qed.


Lemma GetBundledFS_not_bundled (bm : BundledManager) path :
  IsBundledPath bm path = false →
  GetBundledFS bm path = (None, "", false).
Proof. apply GetBundledFS_range_none. Qed.

Lemma GetBundledFS_only (bm : BundledManager) path key bundled :
  bm !! key = Some bundled →
  strings.HasPrefix path key = true →
  (∀ k, is_Some (bm !! k) → strings.HasPrefix path k = true → k = key) →
  GetBundledFS bm path = (Some bundled, strings.TrimPrefix path key, true).
Proof.
  intros Hkey Hp Honly. apply GetBundledFS_range_only; [|done|].
  - by apply elem_of_range_map.
  - intros k b Hin Hk. apply elem_of_range_map in Hin.
    assert (k = key) as -> by (apply Honly; [by exists b|done]).
    split; [done|]. congruence.
Qed.

End registry_facts.

(** ** Sample data *)

Example sample_hybrid_reads_bundled :
  @ReadFile range_in_key_order _ _ sample_hybrid "stdlib://core.txt"
  = (bytes_of "core", None).
Proof. vm_compute. reflexivity. Qed.

Example sample_hybrid_reads_memory :
  @ReadFile range_in_key_order _ _ sample_hybrid "main.go"
  = (bytes_of "package main", None).
Proof. vm_compute. reflexivity. Qed.

(** ** Bundled paths are read-only *)

Section read_only.
Context `{MapRange} {S : Type} `{Fs S}.

(** C1: for a path classified as bundled, each of [WriteFile],
    [MkdirAll], [Remove] and [RemoveAll] returns its read-only error and
    the instance it was called on, store and registry included, as it
    was. *)
Theorem bundled_paths_reject_mutation (v : VFS S) (p : string) (data : bytes)
    (perm : FileMode) :
  IsBundledPath (bundledManager v) p = true →
  WriteFile v p data perm
    = (Some (Errorf ("cannot write to bundled URL: " +:+ p)), v)
  ∧ MkdirAll v p perm
    = (Some (Errorf ("cannot create directories in bundled URL: " +:+ p)), v)
  ∧ Remove v p = (Some (Errorf ("cannot remove bundled URL: " +:+ p)), v)
  ∧ RemoveAll v p = (Some (Errorf ("cannot remove bundled URL: " +:+ p)), v).
Proof.
  intros Hb. unfold WriteFile, MkdirAll, Remove, RemoveAll.
  rewrite Hb. repeat split.
Qed.

End read_only.

Lemma bundled_paths_reject_mutation_witness :
  let v := sample_hybrid in
  let p := "stdlib://core.txt" in
  @IsBundledPath range_in_key_order (bundledManager v) p = true
  ∧ (@WriteFile range_in_key_order _ _ v p (bytes_of "x") mode_0644).2 = v
  ∧ (@Remove range_in_key_order _ _ v p).2 = v.
Proof.
  intros v p.
  assert (Hb : @IsBundledPath range_in_key_order (bundledManager v) p = true)
    by (vm_compute; reflexivity).
  destruct (@bundled_paths_reject_mutation range_in_key_order _ _ v p
              (bytes_of "x") mode_0644 Hb) as (Hw & _ & Hr & _).
  split; [exact Hb|]. split; [by rewrite Hw | by rewrite Hr].
Defined.

(** ** [Dump] and its writer *)

Section dump_facts.
Context `{MapRange} {S : Type} `{Fs S}.

(** C4: on the nil writer [Dump] does not return at all: the first
    [io.WriteString] calls [Write] on the nil interface and the call
    panics, whatever the instance holds. *)
Theorem Dump_nil_writer_panics (v : VFS S) : Dump v NilWriter = Panics.
Proof. reflexivity. Qed.

(** The results of [io.WriteString] are dropped: with a primary
    filesystem, a writer that fails on every write does not make [Dump]
    fail. *)
Lemma Dump_ignores_write_errors (v : VFS S) (e : error) :
  bundledManager v = ∅ →
  (Walk v "/" Dump_walkFn ∅).1 = None →
  ∃ w, Dump v (BrokenWriter e) = Returns (None, w).
Proof.
  intros Hbm Hwalk. unfold Dump. cbn [io_WriteString obind fst].
  destruct (Walk v "/" Dump_walkFn ∅) as [err tree]. simpl in Hwalk. subst err.
  assert (Hprint : ∀ depth root indent,
             printTree depth (BrokenWriter e) tree root indent
             = Returns (BrokenWriter e)).
  { induction depth as [|depth IH]; intros root indent; [done|].
    simpl. set (last := length (sort_Strings (default [] (tree !! root))) - 1).
    clearbody last. generalize 0.
    induction (sort_Strings (default [] (tree !! root))) as [|path todo IHt];
      intros i; [done|].
    simpl. destruct (tree !! path); simpl; [rewrite IH; simpl|]; apply IHt. }
  rewrite Hprint. cbn [obind].
  assert (ListRegistered (bundledManager v) = []) as ->.
  { unfold ListRegistered. rewrite Hbm.
    pose proof (range_map_perm (∅ : BundledManager)) as Hp.
    rewrite map_to_list_empty in Hp. apply Permutation_nil_r in Hp.
    by rewrite Hp. }
  simpl. eauto.
Qed.

End dump_facts.

Example Dump_nil_writer_on_memory :
  @Dump range_in_key_order _ _ (NewMemoryVFS []) NilWriter = Panics.
Proof. reflexivity. Qed.

Example Dump_broken_writer_on_memory :
  @Dump range_in_key_order _ _ (NewMemoryVFS []) (BrokenWriter (Errorf "closed pipe"))
  = Returns (None, BrokenWriter (Errorf "closed pipe")).
Proof. vm_compute. reflexivity. Qed.

Example Dump_empty_memory :
  @Dump range_in_key_order _ _ (NewMemoryVFS []) (Buffer "")
  = Returns (None, Buffer ("--- VFS Root ---" +:+ LF)).
Proof. vm_compute. reflexivity. Qed.

(** ** The watch matcher *)

(** C5: [pathMatches] holds exactly when the paths are equal, or the
    pattern is the root, or the file lies under the pattern as a directory,
    or the pattern matches the file as a glob (without a pattern error). *)
Theorem pathMatches_rules (Match : string → string → bool * option error)
    (filePath watchPath : string) :
  pathMatches Match filePath watchPath = true ↔
    filePath = watchPath
    ∨ watchPath = "/"
    ∨ filepath.HasPrefix filePath (watchPath +:+ "/") = true
    ∨ Match watchPath filePath = (true, None).
Proof.
  unfold pathMatches.
  destruct (String.eqb_spec filePath watchPath) as [Heq|Hne].
  { split; [by left|done]. }
  destruct (String.eqb_spec watchPath "/") as [Hroot|Hnroot]; simpl.
  { split; [by right; left|done]. }
  destruct (filepath.HasPrefix filePath (watchPath +:+ "/")) eqn:Hpre.
  { split; [by right; right; left|done]. }
  destruct (Match watchPath filePath) as [matched [err|]] eqn:Hm.
  - split; [done|]. intros [?|[?|[?|?]]]; congruence.
  - split.
    + intros ->. by right; right; right.
    + intros [?|[?|[?|?]]]; congruence.
Qed.

(** The rules are tried in this order: the glob is consulted only when
    the three path rules fail. *)
Lemma pathMatches_glob_last (Match : string → string → bool * option error)
    (filePath watchPath : string) :
  filePath ≠ watchPath → watchPath ≠ "/" →
  filepath.HasPrefix filePath (watchPath +:+ "/") = false →
  pathMatches Match filePath watchPath
  = match Match watchPath filePath with
    | (_, Some _) => false
    | (matched, None) => matched
    end.
Proof.
  intros Hne Hnroot Hpre. unfold pathMatches.
  destruct (String.eqb_spec filePath watchPath); [done|].
  destruct (String.eqb_spec watchPath "/"); [done|]. simpl. by rewrite Hpre.
Qed.

Example pathMatches_exact :
  pathMatches literal_Match "/src/a.go" "/src/a.go" = true.
Proof. reflexivity. Qed.
Example pathMatches_root : pathMatches literal_Match "/src/a.go" "/" = true.
Proof. reflexivity. Qed.
Example pathMatches_under_dir :
  pathMatches literal_Match "/src/a.go" "/src" = true.
Proof. reflexivity. Qed.
Example pathMatches_sibling :
  pathMatches literal_Match "/srcs/a.go" "/src" = false.
Proof. reflexivity. Qed.

(** ** Registration *)

Section register_facts.
Context `{MapRange}.

(** C7, as the code has it: [Register] returns no error, files the new
    entry under the prefix's key whatever was there before, and leaves the
    other keys alone; a path under that prefix then resolves to the new
    archive and subdirectory, with the prefix stripped, when no other
    registered prefix starts the path too. *)
Theorem Register_last_wins (bm : BundledManager) (prefix : string)
    (embedFS : embed_FS) (subdir : string) :
  let key := registry_key prefix in
  let bundled := {| b_embedFS := embedFS;
                    b_prefix := strings.TrimSuffix key "://";
                    b_subdir := subdir |} in
  let bm' := (Register bm prefix embedFS subdir).2 in
  (Register bm prefix embedFS subdir).1 = None
  ∧ bm' !! key = Some bundled
  ∧ (∀ k, k ≠ key → bm' !! k = bm !! k)
  ∧ (∀ path,
       strings.HasPrefix path key = true →
       (∀ k, k ≠ key → is_Some (bm !! k) → strings.HasPrefix path k = false) →
       GetBundledFS bm' path
       = (Some bundled, strings.TrimPrefix path key, true)).
Proof.
  intros key bundled bm'.
  assert (Hbm' : bm' = <[key := bundled]> bm) by reflexivity.
  split; [reflexivity|]. split; [by rewrite Hbm', lookup_insert_eq|].
  split; [by intros k Hk; rewrite Hbm', lookup_insert_ne|].
  intros path Hp Honly. apply GetBundledFS_only; [|done|].
  - by rewrite Hbm', lookup_insert_eq.
  - intros k Hsome Hk. destruct (decide (k = key)) as [|Hne]; [done|].
    rewrite Hbm', lookup_insert_ne in Hsome by done.
    specialize (Honly k Hne Hsome). congruence.
Qed.

End register_facts.

Lemma Register_last_wins_witness :
  let bm := (Register NewBundledManager "stdlib" (sample_archive "old") "").2 in
  let bm' := (Register bm "stdlib" (sample_archive "new") "lib").2 in
  @GetBundledFS range_in_reverse_key_order bm' "stdlib://core.txt"
  = (Some {| b_embedFS := sample_archive "new"; b_prefix := "stdlib";
             b_subdir := "lib" |}, "core.txt", true).
Proof.
  intros bm bm'.
  destruct (@Register_last_wins range_in_reverse_key_order bm "stdlib"
              (sample_archive "new") "lib") as (_ & _ & _ & Hres).
  apply (Hres "stdlib://core.txt").
  - reflexivity.
  - intros k Hne [b Hb]. unfold bm, Register in Hb. simpl in Hb.
    apply lookup_insert_Some in Hb as [[<- _]|[_ Hb]]; [done|].
    unfold NewBundledManager in Hb. by rewrite lookup_empty in Hb.
Defined.

(** With two registered prefixes of which one starts the other, a path
    under both may resolve to either: here the prefix [a] has just been
    registered again, and an admissible iteration still resolves
    [a://b://f] to the archive of [a://b]. *)
Lemma Register_overlapping_prefixes_counterexample :
  let bm0 := (Register NewBundledManager "a" (sample_archive "one") "").2 in
  let bm1 := (Register bm0 "a://b" (sample_archive "two") "").2 in
  let bm2 := (Register bm1 "a" (sample_archive "three") "lib").2 in
  strings.HasPrefix "a://b://f" (registry_key "a") = true
  ∧ ∃ R : MapRange,
      @GetBundledFS R bm2 "a://b://f"
      = (Some {| b_embedFS := sample_archive "two"; b_prefix := "a://b";
                 b_subdir := "" |}, "f", true)
      ∧ sample_archive "two" ≠ sample_archive "three".
Proof.
  split; [reflexivity|].
  exists range_in_key_order. split; [vm_compute; reflexivity|].
  intros Heq.
  apply (f_equal (fun a => embed_files a !! "lib/core.txt")) in Heq.
  vm_compute in Heq. discriminate.
Qed.

(** ** Instances without a watch subsystem *)

Lemma configure_type_last opts t : cfg_type (configure (opts ++ [WithType t])) = t.
Proof. unfold configure. by rewrite fold_left_app. Qed.

Lemma NewMemoryVFS_kind opts :
  vfsType (NewMemoryVFS opts) = VFSTypeMemory
  ∧ no_watcher_unless_disk (NewMemoryVFS opts).
Proof. split; [apply configure_type_last|done]. Qed.

Lemma NewHybridVFS_kind opts :
  vfsType (NewHybridVFS opts) = VFSTypeHybrid
  ∧ no_watcher_unless_disk (NewHybridVFS opts).
Proof. split; [apply configure_type_last|done]. Qed.

Lemma walk_visits_preserves {A : Type} (P : A → Prop) (walkFn : WalkFunc A)
    (visits : list visit) (a : A) :
  (∀ path info err a, P a → P (walkFn path info err a).2) →
  P a → P (walk_visits walkFn visits a).2.
Proof.
  intros Hstep. revert a.
  induction visits as [|[[path info] err] visits IH]; intros a Ha; [done|].
  simpl. specialize (Hstep path info err a Ha).
  destruct (walkFn path info err a) as [[e|] a']; [done|]. by apply IH.
Qed.

Section watch_facts.
Context `{MapRange}.

Lemma Walk_preserves {S : Type} `{Fs S} {A : Type} (P : A → Prop) (v : VFS S)
    (root : string) (walkFn : WalkFunc A) (a : A) :
  (∀ path info err a, P a → P (walkFn path info err a).2) →
  P a → P (Walk v root walkFn a).2.
Proof.
  intros Hstep Ha. unfold Walk, Bundled.Walk.
  destruct (GetBundledFS (bundledManager v) root) as [[[b|] rest] [|]];
    by apply walk_visits_preserves.
Qed.

(** The mutating calls keep everything of the instance but its store. *)
Lemma WriteFile_keeps {S : Type} `{Fs S} (v : VFS S) p data perm :
  let v' := (WriteFile v p data perm).2 in
  root v' = root v ∧ vfsType v' = vfsType v
  ∧ bundledManager v' = bundledManager v ∧ watchManager v' = watchManager v.
Proof.
  unfold WriteFile. destruct (IsBundledPath _ _); [done|].
  destruct (fs_MkdirAll _ _ _) as [[e|] s]; [done|].
  by destruct (fs_WriteFile _ _ _ _).
Qed.

Lemma Clone_shape {S : Type} `{Fs S} (v : VFS S) :
  root (Clone v) = root v ∧ vfsType (Clone v) = VFSTypeMemory
  ∧ bundledManager (Clone v) = bundledManager v ∧ watchManager (Clone v) = None.
Proof.
  unfold Clone.
  apply (Walk_preserves
           (fun c : VFS MemMapFs =>
              root c = root v ∧ vfsType c = VFSTypeMemory
              ∧ bundledManager c = bundledManager v ∧ watchManager c = None));
    [|done].
  intros path info err c (Hr & Ht & Hb & Hw). unfold Clone_walkFn.
  destruct err; [done|]. destruct info as [info|]; [|done].
  destruct (fi_isDir info); [done|].
  destruct (IsBundledPath _ _); [done|].
  destruct (ReadFile v path) as [data [e|]]; [done|].
  destruct (WriteFile_keeps c path data (fi_mode info)) as (-> & -> & -> & ->).
  done.
Qed.

(** No call of the facade gives an instance a watch manager or another
    type. *)
Lemma no_watcher_preserved {S : Type} `{Fs S} (v : VFS S) p data perm prefix
    embedFS subdir :
  no_watcher_unless_disk v →
  no_watcher_unless_disk (WriteFile v p data perm).2
  ∧ no_watcher_unless_disk (MkdirAll v p perm).2
  ∧ no_watcher_unless_disk (Remove v p).2
  ∧ no_watcher_unless_disk (RemoveAll v p).2
  ∧ no_watcher_unless_disk (RegisterBundled v prefix embedFS subdir).2
  ∧ no_watcher_unless_disk (Clone v).
Proof.
  intros Hinv. repeat split.
  - destruct (WriteFile_keeps v p data perm) as (_ & Ht & _ & Hw).
    unfold no_watcher_unless_disk. by rewrite Ht, Hw.
  - unfold MkdirAll. destruct (IsBundledPath _ _); [done|].
    by destruct (fs_MkdirAll _ _ _).
  - unfold Remove. destruct (IsBundledPath _ _); [done|].
    by destruct (fs_Remove _ _).
  - unfold RemoveAll. destruct (IsBundledPath _ _); [done|].
    by destruct (fs_RemoveAll _ _).
  - done.
  - intros _. apply Clone_shape.
Qed.

(** C8: on an instance of memory or hybrid type, [Watch], [StopWatch] and
    [StopAllWatches] each return the same fixed error and the instance as
    it was, and [IsWatching] answers false. *)
Theorem watch_calls_unavailable {S : Type} (v : VFS S) (pattern : string)
    (callback : WatchAction) :
  no_watcher_unless_disk v →
  vfsType v = VFSTypeMemory ∨ vfsType v = VFSTypeHybrid →
  let unavailable := Errorf "watching is only available for disk-based VFS" in
  Watch v pattern callback = (Some unavailable, v)
  ∧ StopWatch v pattern = (Some unavailable, v)
  ∧ StopAllWatches v = (Some unavailable, v)
  ∧ IsWatching v pattern = false.
Proof.
  intros Hinv Hkind unavailable.
  assert (Hnone : watchManager v = None).
  { apply Hinv. destruct Hkind as [-> | ->]; done. }
  unfold Watch, StopWatch, StopAllWatches, IsWatching. rewrite Hnone. done.
Qed.

End watch_facts.

Lemma watch_calls_unavailable_witness :
  let v := NewHybridVFS [WithRoot "/srv"] in
  Watch v "/" 7
  = (Some (Errorf "watching is only available for disk-based VFS"), v)
  ∧ @StopAllWatches range_in_key_order _ v
    = (Some (Errorf "watching is only available for disk-based VFS"), v)
  ∧ IsWatching v "/" = false.
Proof.
  intros v.
  destruct (@watch_calls_unavailable range_in_key_order _ v "/" 7)
    as (Hw & _ & Ha & Hi).
  - apply NewHybridVFS_kind.
  - right. apply NewHybridVFS_kind.
  - split; [exact Hw|]. split; [exact Ha | exact Hi].
Defined.

(** ** Cleaned paths *)

Lemma split_slash_nonempty s : strings.split_slash s ≠ [].
Proof.
  destruct s as [|c s]; simpl; [done|].
  destruct (Ascii.eqb c "/"); [done|]. by destruct (strings.split_slash s).
Qed.

Lemma split_slash_no_slash s :
  Forall (fun e => strings.contains_slash e = false) (strings.split_slash s).
Proof.
  induction s as [|c s IH]; simpl; [by repeat constructor|].
  destruct (Ascii.eqb c "/") eqn:Hc; [by constructor|].
  destruct (strings.split_slash s) as [|h t]; [by repeat constructor; simpl; rewrite Hc|].
  inversion IH; subst. constructor; [|done]. simpl. by rewrite Hc.
Qed.

Lemma split_slash_name e :
  strings.contains_slash e = false → strings.split_slash e = [e].
Proof.
  induction e as [|c e IH]; simpl; [done|].
  destruct (Ascii.eqb c "/"); [done|]. simpl. intros He. by rewrite IH.
Qed.

Lemma split_slash_app e t :
  strings.contains_slash e = false →
  strings.split_slash (e +:+ "/" +:+ t) = e :: strings.split_slash t.
Proof.
  induction e as [|c e IH]; simpl; [done|].
  destruct (Ascii.eqb c "/"); [done|]. simpl. intros He. by rewrite IH.
Qed.

Lemma split_join_slash elems :
  elems ≠ [] →
  Forall (fun e => strings.contains_slash e = false) elems →
  strings.split_slash (strings.join_slash elems) = elems.
Proof.
  induction elems as [|e rest IH]; [done|]. intros _ Hall.
  inversion Hall as [|? ? He Hrest]; subst.
  destruct rest as [|e' rest].
  - simpl. by apply split_slash_name.
  - change (strings.join_slash (e :: e' :: rest))
      with (e +:+ "/" +:+ strings.join_slash (e' :: rest)).
    rewrite split_slash_app by done. by rewrite IH.
Qed.

Lemma clean_step_name kept e :
  is_name e → filepath.clean_step true kept e = e :: kept.
Proof.
  intros (H1 & H2 & H3 & _). unfold filepath.clean_step.
  apply String.eqb_neq in H1, H2, H3. by rewrite H1, H2, H3.
Qed.

Lemma clean_step_names kept e :
  Forall is_name kept → strings.contains_slash e = false →
  Forall is_name (filepath.clean_step true kept e).
Proof.
  intros Hkept He. unfold filepath.clean_step.
  destruct (String.eqb_spec e ""); [done|].
  destruct (String.eqb_spec e "."); [done|]. simpl.
  destruct (String.eqb_spec e "..").
  - destruct kept as [|top below]; [done|].
    inversion Hkept as [|? ? Htop Hbelow]; subst.
    destruct (String.eqb_spec top ".."); [|done].
    destruct Htop as (_ & _ & Hdd & _). done.
  - by constructor.
Qed.

Lemma fold_clean_step_names elems kept :
  Forall is_name kept →
  Forall (fun e => strings.contains_slash e = false) elems →
  Forall is_name (fold_left (filepath.clean_step true) elems kept).
Proof.
  revert kept. induction elems as [|e elems IH]; intros kept Hkept Hall; [done|].
  inversion Hall; subst. simpl. apply IH; [|done]. by apply clean_step_names.
Qed.

Lemma fold_clean_step_all_names elems kept :
  Forall is_name elems →
  fold_left (filepath.clean_step true) elems kept = rev elems ++ kept.
Proof.
  revert kept. induction elems as [|e elems IH]; intros kept Hall; [done|].
  inversion Hall; subst. simpl. rewrite clean_step_name by done.
  rewrite IH by done. by rewrite <- app_assoc.
Qed.

Lemma IsAbs_rooted elems : filepath.IsAbs (rooted elems) = true.
Proof. reflexivity. Qed.

Lemma Clean_abs p :
  filepath.IsAbs p = true → filepath.Clean p = rooted (filepath.clean_elems p).
Proof. unfold filepath.Clean. by intros ->. Qed.

Lemma clean_elems_names p :
  filepath.IsAbs p = true → Forall is_name (filepath.clean_elems p).
Proof.
  intros Habs. unfold filepath.clean_elems. rewrite Habs.
  apply Forall_rev, fold_clean_step_names; [done|apply split_slash_no_slash].
Qed.

(** The elements of a rooted path of names are those names. *)
Lemma clean_elems_rooted elems :
  Forall is_name elems → filepath.clean_elems (rooted elems) = elems.
Proof.
  intros Hall. unfold filepath.clean_elems. rewrite IsAbs_rooted.
  change (strings.split_slash (rooted elems))
    with ("" :: strings.split_slash (strings.join_slash elems)).
  destruct elems as [|e rest]; [done|].
  rewrite split_join_slash; [|done|].
  - change (fold_left (filepath.clean_step true) ("" :: e :: rest) [])
      with (fold_left (filepath.clean_step true) (e :: rest) []).
    rewrite fold_clean_step_all_names by done.
    by rewrite app_nil_r, rev_involutive.
  - eapply Forall_impl; [exact Hall|]. by intros x (_ & _ & _ & Hx).
Qed.

Lemma Clean_rooted elems :
  Forall is_name elems → filepath.Clean (rooted elems) = rooted elems.
Proof.
  intros Hall. rewrite Clean_abs by apply IsAbs_rooted.
  by rewrite clean_elems_rooted.
Qed.

(** [Clean] is idempotent on absolute paths, and its result is absolute. *)
Lemma Clean_idempotent p :
  filepath.IsAbs p = true → filepath.Clean (filepath.Clean p) = filepath.Clean p.
Proof.
  intros Habs. rewrite (Clean_abs p Habs).
  apply Clean_rooted, clean_elems_names, Habs.
Qed.

Lemma IsAbs_Clean p :
  filepath.IsAbs p = true → filepath.IsAbs (filepath.Clean p) = true.
Proof. intros Habs. by rewrite (Clean_abs p Habs). Qed.

Lemma rooted_inj l1 l2 :
  Forall is_name l1 → Forall is_name l2 → rooted l1 = rooted l2 → l1 = l2.
Proof.
  intros H1 H2 Heq.
  rewrite <- (clean_elems_rooted l1 H1), <- (clean_elems_rooted l2 H2).
  by rewrite Heq.
Qed.

(** ** Cleaned paths are never bundled *)
















Section clean_not_bundled.
Context `{MapRange}.




End clean_not_bundled.

(** ** Path normalisation *)

Section normalize_facts.
Context `{MapRange}.

Lemma normalizePath_relative {S : Type} (v : VFS S) (path : string) :
  IsBundledPath (bundledManager v) path = false →
  filepath.IsAbs path = false →
  normalizePath v path = filepath.Clean ("/" +:+ "/" +:+ path).
Proof. intros Hb Ha. unfold normalizePath. by rewrite Hb, Ha. Qed.

Lemma normalizePath_abs {S : Type} (v : VFS S) (path : string) :
  IsBundledPath (bundledManager v) path = false →
  filepath.IsAbs (normalizePath v path) = true.
Proof.
  intros Hb. destruct (filepath.IsAbs path) eqn:Hp.
  - unfold normalizePath. by rewrite Hb, Hp.
  - rewrite normalizePath_relative by done. by apply IsAbs_Clean.
Qed.

(** C3, as the code has it: [normalizePath] returns a bundled path and an
    absolute path unchanged; a relative path that is not bundled becomes
    [filepath.Join("/", path)], which is absolute and cleaned. *)
Theorem normalizePath_cases {S : Type} (v : VFS S) (path : string) :
  (IsBundledPath (bundledManager v) path = true → normalizePath v path = path)
  ∧ (IsBundledPath (bundledManager v) path = false →
     filepath.IsAbs path = true → normalizePath v path = path)
  ∧ (IsBundledPath (bundledManager v) path = false →
     filepath.IsAbs path = false →
     normalizePath v path = filepath.Join "/" path
     ∧ filepath.IsAbs (normalizePath v path) = true
     ∧ filepath.Clean (normalizePath v path) = normalizePath v path).
Proof.
  split; [|split].
  - intros Hb. unfold normalizePath. by rewrite Hb.
  - intros Hb Ha. unfold normalizePath. by rewrite Hb, Ha.
  - intros Hb Ha. split; [by apply normalizePath_relative|].
    split; [by apply normalizePath_abs|].
    rewrite normalizePath_relative by done. by apply Clean_idempotent.
Qed.

End normalize_facts.

Lemma normalizePath_cases_witness :
  let v := sample_hybrid in
  @normalizePath range_in_key_order _ v "stdlib://lib/../core.txt"
    = "stdlib://lib/../core.txt"
  ∧ @normalizePath range_in_key_order _ v "/a/../b.txt" = "/a/../b.txt"
  ∧ @normalizePath range_in_key_order _ v "a/../b.txt" = "/b.txt".
Proof.
  intros v.
  destruct (@normalizePath_cases range_in_key_order _ v "stdlib://lib/../core.txt")
    as (Hb & _ & _).
  destruct (@normalizePath_cases range_in_key_order _ v "/a/../b.txt")
    as (_ & Ha & _).
  destruct (@normalizePath_cases range_in_key_order _ v "a/../b.txt")
    as (_ & _ & Hr).
  split; [apply Hb; vm_compute; reflexivity|].
  split; [apply Ha; vm_compute; reflexivity|].
  destruct Hr as (-> & _ & _); vm_compute; reflexivity.
Defined.

(** An absolute path is not cleaned: the dot-dot element stays. *)
Lemma normalizePath_absolute_counterexample :
  let v := NewMemoryVFS [] in
  @IsBundledPath range_in_key_order (bundledManager v) "/a/../b.txt" = false
  ∧ @normalizePath range_in_key_order _ v "/a/../b.txt" = "/a/../b.txt"
  ∧ @normalizePath range_in_key_order _ v "/a/../b.txt" ≠ "/b.txt"
  ∧ @normalizePath range_in_key_order _ v "/a//b/./c.txt" ≠ "/a/b/c.txt".
Proof. vm_compute. repeat split; discriminate. Qed.

(** ** Facts about lineages *)

Lemma elem_of_lineage d q :
  d ∈ lineage q ↔
  ∃ i, i ≤ length (filepath.clean_elems q)
       ∧ d = rooted (take i (filepath.clean_elems q)).
Proof.
  unfold lineage. rewrite list_elem_of_fmap. split.
  - intros (i & -> & Hi). apply elem_of_seq in Hi. exists i. split; [lia|done].
  - intros (i & Hi & ->). exists i. split; [done|]. apply elem_of_seq. lia.
Qed.

Lemma lineage_names d q :
  filepath.IsAbs q = true → d ∈ lineage q →
  ∃ elems, d = rooted elems ∧ Forall is_name elems.
Proof.
  intros Habs Hd. apply elem_of_lineage in Hd as (i & _ & ->).
  eexists. split; [done|]. by apply Forall_take, clean_elems_names.
Qed.

Lemma lineage_clean d q :
  filepath.IsAbs q = true → d ∈ lineage q →
  filepath.Clean d = d ∧ filepath.IsAbs d = true.
Proof.
  intros Habs Hd. destruct (lineage_names d q Habs Hd) as (elems & -> & Hall).
  split; [by apply Clean_rooted|apply IsAbs_rooted].
Qed.


Lemma root_in_lineage q : "/" ∈ lineage q.
Proof. apply elem_of_lineage. exists 0. split; [lia|done]. Qed.

Lemma lineage_Clean q :
  filepath.IsAbs q = true → lineage (filepath.Clean q) = lineage q.
Proof.
  intros Habs. unfold lineage. rewrite (Clean_abs q Habs).
  by rewrite clean_elems_rooted by by apply clean_elems_names.
Qed.

Lemma parents_lineage d q : d ∈ parents q → d ∈ lineage q.
Proof.
  unfold parents. rewrite list_elem_of_fmap. intros (i & -> & Hi).
  apply elem_of_seq in Hi. apply elem_of_lineage. exists i. split; [lia|done].
Qed.




(** ** The memory store meets the contract *)

Lemma mem_normalizePath_abs p :
  filepath.IsAbs p = true → mem.normalizePath p = filepath.Clean p.
Proof.
  intros Habs. unfold mem.normalizePath. by rewrite (Clean_abs p Habs).
Qed.

Lemma mem_normalizePath_Clean p :
  filepath.IsAbs p = true →
  mem.normalizePath (filepath.Clean p) = filepath.Clean p.
Proof.
  intros Habs. rewrite mem_normalizePath_abs by by apply IsAbs_Clean.
  by apply Clean_idempotent.
Qed.

Lemma mkdirs_lookup (m : MemMapFs) dirs perm d :
  mem.mkdirs m dirs perm !! d
  = match m !! d with
    | Some f => Some f
    | None => if decide (d ∈ dirs) then Some (mem.CreateDir perm) else None
    end.
Proof.
  induction dirs as [|x dirs IH].
  - change (mem.mkdirs m [] perm) with m. destruct (m !! d); [done|].
    case_decide as Hin; [by apply elem_of_nil in Hin|done].
  - change (mem.mkdirs m (x :: dirs) perm)
      with (match mem.mkdirs m dirs perm !! x with
            | Some _ => mem.mkdirs m dirs perm
            | None => <[x := mem.CreateDir perm]> (mem.mkdirs m dirs perm)
            end).
    assert (Hcons : ∀ o : option mem_file,
               (if decide (d ∈ x :: dirs) then o else None)
               = if decide (d = x) then o
                 else if decide (d ∈ dirs) then o else None).
    { intros o. destruct (decide (d = x)) as [Heq|Hne].
      - rewrite decide_True; [done|]. rewrite Heq. by left.
      - destruct (decide (d ∈ dirs)) as [Hin|Hnin].
        + rewrite decide_True; [done|]. by right.
        + rewrite decide_False; [done|]. rewrite elem_of_cons. tauto. }
    rewrite Hcons. clear Hcons.
    destruct (mem.mkdirs m dirs perm !! x) eqn:Hx.
    + rewrite IH. destruct (m !! d) eqn:Hd; [done|].
      destruct (decide (d = x)) as [->|Hne]; [|done].
      rewrite IH in Hx. by case_decide.
    + destruct (decide (d = x)) as [->|Hne].
      * rewrite lookup_insert_eq. rewrite IH in Hx. by destruct (m !! x).
      * rewrite lookup_insert_ne by done. by rewrite IH.
Qed.

Lemma mkdirs_lookup_Some (m : MemMapFs) dirs perm d f :
  m !! d = Some f → mem.mkdirs m dirs perm !! d = Some f.
Proof. intros Hd. by rewrite mkdirs_lookup, Hd. Qed.

(** Writing never fails in the memory store, and touches one name besides
    making missing directories. *)
Lemma mem_WriteFile_lookup (m : MemMapFs) q data perm :
  ∃ f, (mem.WriteFile m q data perm).1 = None
       ∧ (mem.WriteFile m q data perm).2 !! mem.normalizePath q = Some f
       ∧ mf_data f = data
       ∧ (∀ g, m !! mem.normalizePath q = Some g → mf_dir f = mf_dir g)
       ∧ (m !! mem.normalizePath q = None → mf_dir f = false)
       ∧ ∀ k g, k ≠ mem.normalizePath q → m !! k = Some g →
                (mem.WriteFile m q data perm).2 !! k = Some g.
Proof.
  unfold mem.WriteFile. destruct (m !! mem.normalizePath q) as [f0|] eqn:Hq.
  - eexists. simpl. split; [done|]. split; [by rewrite lookup_insert_eq|].
    split; [done|]. split; [by intros g [= <-]|]. split; [done|].
    intros k g Hne Hk. by rewrite lookup_insert_ne.
  - eexists. simpl. split; [done|]. split; [by rewrite lookup_insert_eq|].
    split; [done|]. split; [done|]. split; [done|].
    intros k g Hne Hk. rewrite lookup_insert_ne by done.
    by apply mkdirs_lookup_Some.
Qed.

Lemma mem_ReadFile_Some (m : MemMapFs) p data :
  mem.ReadFile m p = (data, None) ↔
  ∃ f, m !! mem.normalizePath p = Some f ∧ mf_data f = data.
Proof.
  unfold mem.ReadFile. destruct (m !! mem.normalizePath p) as [f|].
  - split; [intros [= <-]; eauto|]. by intros (g & [= <-] & <-).
  - split; [done|]. by intros (g & ? & _).
Qed.

Lemma ModePerm_of_CreateDir perm :
  N.land (mf_mode (mem.CreateDir perm)) ModePerm = N.land perm ModePerm.
Proof.
  unfold mem.CreateDir, mf_mode. apply N.bits_inj. intros n.
  rewrite !N.land_spec, N.lor_spec, N.land_spec.
  destruct (N.testbit ModePerm n) eqn:Hn; [|by rewrite !andb_false_r].
  rewrite !andb_true_r.
  assert (Hlt : (n < 9)%N).
  { change ModePerm with (N.ones 9) in Hn.
    destruct (N.lt_ge_cases n 9) as [|Hge]; [done|].
    by rewrite N.ones_spec_high in Hn. }
  assert (N.testbit ModeDir n = false) as ->.
  { unfold ModeDir. rewrite N.shiftl_1_l, N.pow2_bits_false; [done|lia]. }
  assert (N.testbit mem.chmodBits n = true) as ->.
  { unfold mem.chmodBits. rewrite N.lor_spec.
    change ModePerm with (N.ones 9). by rewrite N.ones_spec_low. }
  by rewrite andb_true_r.
Qed.

Lemma mem_WriteFile_inv (m m' : MemMapFs) q data perm e :
  mem.WriteFile m q data perm = (e, m') →
  e = None ∧ m' = (mem.WriteFile m q data perm).2.
Proof.
  intros Hw. destruct (mem_WriteFile_lookup m q data perm) as (f & He & _).
  rewrite Hw in He. simpl in He. by rewrite Hw.
Qed.

Lemma mem_read_clean (m : MemMapFs) p :
  filepath.IsAbs p = true →
  mem.ReadFile m (filepath.Clean p) = mem.ReadFile m p.
Proof.
  intros Habs. unfold mem.ReadFile.
  by rewrite mem_normalizePath_Clean, mem_normalizePath_abs.
Qed.

Lemma mem_read_after_write (m m' : MemMapFs) p data perm :
  mem.WriteFile m p data perm = (None, m') → mem.ReadFile m' p = (data, None).
Proof.
  intros Hw. apply mem_WriteFile_inv in Hw as [_ ->].
  destruct (mem_WriteFile_lookup m p data perm) as (f & _ & Hf & Hd & _).
  apply mem_ReadFile_Some. eauto.
Qed.

Lemma mem_normalizePath_ne p q :
  filepath.IsAbs p = true → filepath.IsAbs q = true →
  filepath.Clean p ≠ filepath.Clean q →
  mem.normalizePath p ≠ mem.normalizePath q.
Proof. intros Hp Hq. by rewrite !mem_normalizePath_abs. Qed.

Lemma mem_write_frame_read (m m' : MemMapFs) q data perm p old :
  filepath.IsAbs p = true → filepath.IsAbs q = true →
  mem.WriteFile m q data perm = (None, m') →
  filepath.Clean p ≠ filepath.Clean q →
  mem.ReadFile m p = (old, None) → mem.ReadFile m' p = (old, None).
Proof.
  intros Hp Hq Hw Hne Hr. apply mem_WriteFile_inv in Hw as [_ ->].
  apply mem_ReadFile_Some in Hr as (g & Hg & Hd).
  destruct (mem_WriteFile_lookup m q data perm) as (f & _ & _ & _ & _ & _ & Hframe).
  apply mem_ReadFile_Some. exists g. split; [|done].
  apply Hframe; [by apply mem_normalizePath_ne|done].
Qed.

Lemma mem_dir_perm (m : MemMapFs) p bits :
  dir_perm m p = Some bits ↔
  ∃ g, m !! mem.normalizePath p = Some g ∧ mf_dir g = true
       ∧ N.land (mf_mode g) ModePerm = bits.
Proof.
  unfold dir_perm. simpl. unfold mem.Stat.
  destruct (m !! mem.normalizePath p) as [g|]; simpl.
  - destruct (mf_dir g) eqn:Hg.
    + split; [intros [= <-]; eauto|]. by intros (g' & [= <-] & _ & <-).
    + split; [done|]. intros (g' & [= <-] & ? & _). congruence.
  - split; [done|]. by intros (g & ? & _).
Qed.

Lemma mem_write_frame_dir (m m' : MemMapFs) q data perm p bits :
  filepath.IsAbs p = true → filepath.IsAbs q = true →
  mem.WriteFile m q data perm = (None, m') →
  filepath.Clean p ≠ filepath.Clean q →
  dir_perm m p = Some bits → dir_perm m' p = Some bits.
Proof.
  intros Hp Hq Hw Hne Hd. apply mem_WriteFile_inv in Hw as [_ ->].
  apply mem_dir_perm in Hd as (g & Hg & Hdir & Hbits).
  destruct (mem_WriteFile_lookup m q data perm) as (f & _ & _ & _ & _ & _ & Hframe).
  apply mem_dir_perm. exists g. split; [|done].
  apply Hframe; [by apply mem_normalizePath_ne|done].
Qed.

Lemma mem_MkdirAll_inv (m m' : MemMapFs) q perm e :
  mem.MkdirAll m q perm = (e, m') →
  e = None ∧ m' = mem.mkdirs m (lineage (mem.normalizePath q)) perm.
Proof. unfold mem.MkdirAll. intros Hm. split; congruence. Qed.

Lemma mem_mkdir_frame_read (m m' : MemMapFs) q perm p old :
  mem.MkdirAll m q perm = (None, m') →
  mem.ReadFile m p = (old, None) → mem.ReadFile m' p = (old, None).
Proof.
  intros Hm Hr. apply mem_MkdirAll_inv in Hm as [_ ->].
  apply mem_ReadFile_Some in Hr as (g & Hg & Hd).
  apply mem_ReadFile_Some. exists g. split; [|done].
  by apply mkdirs_lookup_Some.
Qed.

Lemma mem_normalizePath_lineage d q :
  filepath.IsAbs q = true → d ∈ lineage q → mem.normalizePath d = d.
Proof.
  intros Habs Hd. destruct (lineage_clean d q Habs Hd) as [Hc Ha].
  by rewrite mem_normalizePath_abs.
Qed.

Lemma mem_mkdir_makes_lineage (m : MemMapFs) q perm :
  filepath.IsAbs q = true →
  (∀ d, d ∈ lineage q → stat_absent m d = true ∨ stat_isDir m d = true) →
  ∃ m', mem.MkdirAll m q perm = (None, m')
        ∧ ∀ d, d ∈ lineage q →
            stat_isDir m' d = true
            ∧ (stat_absent m d = true →
               dir_perm m' d = Some (N.land perm ModePerm)).
Proof.
  intros Habs Hfree.
  exists (mem.mkdirs m (lineage (mem.normalizePath q)) perm).
  split; [reflexivity|]. intros d Hd.
  rewrite mem_normalizePath_abs, lineage_Clean by done.
  specialize (Hfree d Hd). revert Hfree.
  unfold stat_isDir, stat_absent, dir_perm. simpl. unfold mem.Stat.
  rewrite (mem_normalizePath_lineage d q Habs Hd), mkdirs_lookup.
  destruct (m !! d) as [g|] eqn:Hg; simpl.
  - intros [?|Hdir]; [done|]. by rewrite Hdir.
  - intros _. rewrite decide_True by done. simpl. split; [done|]. intros _.
    f_equal. apply ModePerm_of_CreateDir.
Qed.

Lemma mem_mkdir_only_lineage (m m' : MemMapFs) q perm p :
  filepath.IsAbs p = true → filepath.IsAbs q = true →
  mem.MkdirAll m q perm = (None, m') →
  filepath.Clean p ∉ lineage q → mem.Stat m' p = mem.Stat m p.
Proof.
  intros Hp Hq Hm Hnot. apply mem_MkdirAll_inv in Hm as [_ ->].
  unfold mem.Stat.
  rewrite (mem_normalizePath_abs q Hq), (lineage_Clean q Hq).
  rewrite (mem_normalizePath_abs p Hp), mkdirs_lookup.
  destruct (m !! filepath.Clean p); [done|]. by rewrite decide_False.
Qed.

Lemma mem_remove_failure_unchanged (m m' : MemMapFs) p e :
  mem.Remove m p = (Some e, m') → m' = m.
Proof.
  unfold mem.Remove. destruct (m !! mem.normalizePath p); [done|]. by intros [= _ <-].
Qed.

Lemma walk_sort_elem x paths : x ∈ walk_sort paths ↔ x ∈ paths.
Proof. unfold walk_sort. by rewrite merge_sort_Permutation. Qed.

Lemma mem_Walk_root_visits (m : MemMapFs) f x :
  m !! "/" = Some f → mf_dir f = true →
  x ∈ mem.Walk m "/" ↔
    x = ("/", Some (mem.GetFileInfo "/" f), None)
    ∨ ∃ name g, x = (name, Some (mem.GetFileInfo name g), None)
                ∧ m !! name = Some g ∧ mem.below "/" name = true.
Proof.
  intros Hroot Hdir. unfold mem.Walk.
  change (mem.normalizePath "/") with "/". rewrite Hroot, Hdir.
  rewrite elem_of_cons, list_elem_of_omap. apply or_iff_compat_l. split.
  - intros (name & Hin & Hx). apply walk_sort_elem, list_elem_of_filter in Hin as [Hb _].
    destruct (m !! name) as [g|] eqn:Hg; [|done]. injection Hx as <-.
    exists name, g. split; [done|]. split; [done|]. by apply Is_true_true.
  - intros (name & g & -> & Hg & Hb). exists name. rewrite Hg. split; [|done].
    apply walk_sort_elem, list_elem_of_filter. split; [by apply Is_true_true|].
    apply list_elem_of_fmap. exists (name, g). split; [done|].
    by apply elem_of_map_to_list.
Qed.

Lemma mem_below_root name :
  mem.below "/" name = true →
  filepath.IsAbs name = true ∧ mem.normalizePath name = name ∧ name ≠ "/".
Proof.
  unfold mem.below. intros Hb.
  apply andb_true_iff in Hb as [Hb Habs]. apply andb_true_iff in Hb as [Hn Hne].
  apply String.eqb_eq in Hn. apply negb_true_iff, String.eqb_neq in Hne.
  done.
Qed.

Lemma mem_walk_from_root (m : MemMapFs) :
  stat_isDir m "/" = true →
  Forall (visit_ok m) (mem.Walk m "/")
  ∧ ∀ p info,
      filepath.IsAbs p = true → mem.Stat m p = inl info → fi_isDir info = false →
      ∃ info', (filepath.Clean p, Some info', None) ∈ mem.Walk m "/"
               ∧ fi_isDir info' = false.
Proof.
  unfold stat_isDir. simpl. unfold mem.Stat.
  change (mem.normalizePath "/") with "/".
  destruct (m !! "/") as [f|] eqn:Hroot; [|done]. simpl. intros Hdir. split.
  - apply Forall_forall. intros x Hx.
    apply (mem_Walk_root_visits m f x Hroot Hdir) in Hx
      as [->|(name & g & -> & Hg & Hb)].
    + split; [done|]. eexists. split; [done|]. simpl. by rewrite Hdir.
    + apply mem_below_root in Hb as (Habs & Hn & _).
      split; [done|]. eexists. split; [done|]. simpl. intros _.
      split; [done|]. split; [by rewrite <- mem_normalizePath_abs|].
      exists (mf_data g). apply mem_ReadFile_Some. exists g. by rewrite Hn.
  - intros p info Habs Hstat Hfile.
    rewrite (mem_normalizePath_abs p Habs) in Hstat.
    destruct (m !! filepath.Clean p) as [g|] eqn:Hg; [|done].
    injection Hstat as <-. simpl in Hfile.
    exists (mem.GetFileInfo (filepath.Clean p) g). split; [|done].
    apply (mem_Walk_root_visits m f _ Hroot Hdir). right.
    exists (filepath.Clean p), g. split; [done|]. split; [done|].
    unfold mem.below. rewrite (mem_normalizePath_Clean p Habs), String.eqb_refl.
    rewrite (IsAbs_Clean p Habs). simpl. rewrite andb_true_r.
    apply negb_true_iff, String.eqb_neq. intros Heq. rewrite Heq in Hg. congruence.
Qed.

#[export] Instance MemMapFs_contract : FsContract MemMapFs.
Proof.
  split.
  - apply mem_read_clean.
  - intros m m' p data perm _. apply mem_read_after_write.
  - intros m m' p data perm _ Hw. apply mem_WriteFile_inv in Hw as [_ ->].
    destruct (mem_WriteFile_lookup m p data perm) as (f & _ & Hf & _).
    simpl. unfold mem.Stat. rewrite Hf. eauto.
  - apply mem_write_frame_read.
  - apply mem_write_frame_dir.
  - intros m p data perm _ _ _.
    destruct (mem_WriteFile_lookup m p data perm) as (f & He & _).
    exists (mem.WriteFile m p data perm).2. simpl.
    destruct (mem.WriteFile m p data perm). simpl in He. by subst.
  - intros m m' q perm p old _ _. apply mem_mkdir_frame_read.
  - apply mem_mkdir_makes_lineage.
  - apply mem_mkdir_only_lineage.
  - apply mem_remove_failure_unchanged.
  - intros m Hroot _. destruct (mem_walk_from_root m Hroot) as [Hvisits Hlisted].
    split; [|exact Hlisted]. intros x Hx. rewrite Forall_forall in Hvisits.
    destruct (Hvisits x Hx) as (_ & info & Hinfo & Hfile).
    exists info. split; [done|]. intros Hnd. by destruct (Hfile Hnd) as (? & ? & _).
Qed.

(** ** Reading and writing through the facade *)

Section facade_facts.
Context `{MapRange} {S : Type} `{Fs S}.



Lemma Stat_not_bundled (v : VFS S) p :
  IsBundledPath (bundledManager v) p = false →
  Stat v p = fs_Stat (fs v) (normalizePath v p).
Proof. intros Hb. unfold Stat. by rewrite GetBundledFS_not_bundled. Qed.




Context `{!FsContract S}.



End facade_facts.

(** ** Moving, whatever the order of iteration *)




Section move_facts.
Context {S : Type} `{Fs S}.


Context `{!FsContract S}.


End move_facts.




(** ** Cloning *)

Section clone_facts.
Context `{MapRange}.




Section source.
Context {S : Type} `{Fs S}.



Context `{!FsContract S}.


End source.
End clone_facts.



(** The clone stops at the first file it cannot read: on the disk
    instance, where [/b.txt] cannot be read, the walk meets no error and
    [/c.txt] is written and read back, yet the clone made afterwards
    does not hold it. *)
Example Clone_stops_at_unreadable_file :
  let v' := (@WriteFile range_in_key_order _ _ sample_disk "/c.txt"
               (bytes_of "new") mode_0644).2 in
  @ReadFile range_in_key_order _ _ v' "/c.txt" = (bytes_of "new", None)
  ∧ @IsDir range_in_key_order _ _ v' "/c.txt" = false
  ∧ @IsDir range_in_key_order _ _ v' "/" = true
  ∧ forallb (fun x : visit => match x.2 with None => true | Some _ => false end)
            (fs_Walk (fs v') "/") = true
  ∧ @ReadFile range_in_key_order _ _ v' "/b.txt"
    = ([], Some (PathError "open" "/b.txt" "permission denied"))
  ∧ @ReadFile range_in_key_order _ _ (@Clone range_in_key_order _ _ v') "/c.txt"
    = ([], Some (PathError "open" "/c.txt" "file does not exist")).
Proof. vm_compute. repeat split; reflexivity. Qed.

(** ** Writing creates the parent directories *)

Section parents_facts.
Context `{MapRange} {S : Type} `{Fs S} `{!FsContract S}.




End parents_facts.


(** ** [Clone] drops the error of its walk *)


Section clone_errors.
Context `{MapRange} {S : Type} `{Fs S}.



End clone_errors.

